(** * Single-scale blob detection: the LoG filter of [blob_detection.cpp]

    A shallow embedding of [compute_blob_detection] and of the constants it
    uses, followed by the properties of the module's specification.

    Conventions.
    - A C++ [int] is a [Z].  Within the contract the sums [start + k] are
      far from the bounds of [int].  For an offset so large that the sum
      would overflow, C++ leaves the behaviour undefined; the embedding has
      no result there either, since the access is out of bounds.
    - A value of type [ap_fixed<W, I>] is represented by its raw two's
      complement integer [raw]; the number it denotes is [raw / 2^(W - I)].
    - Reading an array outside of its bounds is undefined in C++; the
      embedding returns [None] there, and [None] propagates to the result. *)

From Stdlib Require Import ZArith QArith Qround Lia.
From stdpp Require Import base option list.

Local Open Scope Z_scope.

(** ** The fixed-point type [ap_fixed<W, I>]

    [W] is the total width in bits and [I] the number of integer bits, sign
    bit included.  The template's default modes are used by the source:
    quantisation [AP_TRN] (truncation towards minus infinity) and overflow
    [AP_WRAP] (two's complement wrap-around). *)
Module ap_fixed.
Section Format.
Variables W I : Z.

Definition frac_bits : Z := W - I.
Definition min_raw : Z := - 2 ^ (W - 1).
Definition max_raw : Z := 2 ^ (W - 1) - 1.

Definition in_range (raw : Z) : Prop := min_raw <= raw <= max_raw.

(** [AP_WRAP]: keep the low [W] bits, read as a signed number. *)
Definition wrap (z : Z) : Z := (z + 2 ^ (W - 1)) mod 2 ^ W - 2 ^ (W - 1).

(** Construction from a floating-point literal, given as the rational it
    stands for: scale by [2^frac_bits], round down, wrap. *)
Definition of_double (d : Q) : Z :=
  wrap (Qfloor (d * inject_Z (2 ^ frac_bits))).

(** [operator+=] on two values of the same format. *)
Definition add (a b : Z) : Z := wrap (a + b).

(** [operator>=]. *)
Definition ge (a b : Z) : bool := b <=? a.

(** The rational number a raw value denotes. *)
Definition to_Q (raw : Z) : Q := inject_Z raw / inject_Z (2 ^ frac_bits).

(** The distance between two neighbouring representable numbers. *)
Definition resolution : Q := to_Q 1.
End Format.
End ap_fixed.

(** ** Internal definitions of the module *)

Definition LOG_NUM_BITS : Z := 16.
Definition LOG_INTEGER_BITS : Z := 2.

(** [typedef ap_fixed<LOG_NUM_BITS, LOG_INTEGER_BITS> log_response_t] *)
Definition log_response_t : Type := Z.

Definition log_wrap : Z → log_response_t :=
  ap_fixed.wrap LOG_NUM_BITS.
Definition log_of_double : Q → log_response_t :=
  ap_fixed.of_double LOG_NUM_BITS LOG_INTEGER_BITS.
Definition log_add : log_response_t → log_response_t → log_response_t :=
  ap_fixed.add LOG_NUM_BITS.
Definition log_ge : log_response_t → log_response_t → bool :=
  ap_fixed.ge.
Definition log_to_Q : log_response_t → Q :=
  ap_fixed.to_Q LOG_NUM_BITS LOG_INTEGER_BITS.
Definition log_in_range : log_response_t → Prop :=
  ap_fixed.in_range LOG_NUM_BITS.

Arguments log_to_Q raw%_Z.
Arguments log_of_double d%_Q.

(** Modelled from the spec: [BLOB_FILTER_HEIGHT] and [BLOB_FILTER_WIDTH] are
    declared in [blob_detection.h]; the kernel is 5x5, as the initialiser of
    [LOG_FILTER] also shows. *)
Definition BLOB_FILTER_HEIGHT : Z := 5.
Definition BLOB_FILTER_WIDTH : Z := 5.

(** Modelled from the spec: [monochrome_t], [monochrome_window_t] and
    [blob_detection_t] are declared in [monochrome.h] and
    [blob_detection.h]; a pixel is one bit, a window is a
    [BLOB_FILTER_HEIGHT] x [BLOB_FILTER_WIDTH] array of pixels, a decision
    is one bit. *)
Definition monochrome_t : Type := bool.
Definition monochrome_window_t : Type := list (list monochrome_t).
Definition blob_detection_t : Type := bool.

(** [static const log_response_t LOG_RESPONSE_THRESHOLD = 0.490 * 1.0] *)
Definition LOG_RESPONSE_THRESHOLD : log_response_t :=
  Eval vm_compute in log_of_double ((490 # 1000) * 1)%Q.

(** The literals of the kernel, in ten-thousandths. *)
Definition LOG_FILTER_literals : list (list Z) :=
  [ [-239; -460; -499; -460; -239];
    [-460;  -61;  923;  -61; -460];
    [-499;  923; 3182;  923; -499];
    [-460;  -61;  923;  -61; -460];
    [-239; -460; -499; -460; -239] ].

Definition literal (ten_thousandths : Z) : Q := ten_thousandths # 10000.

(** [static const log_response_t LOG_FILTER[..][..] = { ... }]

    A literal is converted as the rational it is written as.  The [double]
    nearest to it is closer than 2^-50 to it, and every literal, scaled by
    2^14, is farther than 0.05 from the next integer: rounding down the
    rational and rounding down the [double] give the same raw value. *)
Definition LOG_FILTER : list (list log_response_t) :=
  Eval vm_compute in
    map (map (λ l, log_of_double (literal l))) LOG_FILTER_literals.

(** ** The LoG filter *)

(** [(start + k < bound) ? start + k : start + k - bound] *)
Definition wrap_index (start k bound : Z) : Z :=
  if start + k <? bound then start + k else start + k - bound.

(** [a[row][col]] on a two-dimensional array. *)
Definition array2_get {A} (a : list (list A)) (row col : Z) : option A :=
  if (row <? 0) || (col <? 0) then None
  else line ← a !! Z.to_nat row; line !! Z.to_nat col.

Definition window_get (window : monochrome_window_t) (row col : Z)
  : option monochrome_t := array2_get window row col.

Definition filter_get (i j : Z) : option log_response_t :=
  array2_get LOG_FILTER i j.

(** [for (int k = 0; k < bound; k++) body], threading the accumulator. *)
Fixpoint for_each {A I} (body : I → A → option A) (idx : list I) (acc : A)
  : option A :=
  match idx with
  | [] => Some acc
  | k :: idx' => acc' ← body k acc; for_each body idx' acc'
  end.

Definition loop_indices (bound : Z) : list Z := seqZ 0 bound.

(** The body of the inner loop: one kernel tap. *)
Definition blob_detect_tap (window : monochrome_window_t)
    (start_row start_col i j : Z) (response : log_response_t)
  : option log_response_t :=
  let row := wrap_index start_row i BLOB_FILTER_HEIGHT in
  let col := wrap_index start_col j BLOB_FILTER_WIDTH in
  px ← window_get window row col;
  if px : bool then k ← filter_get i j; Some (log_add response k)
  else Some response.

(** The loop labelled [blob_detect_col]. *)
Definition blob_detect_col (window : monochrome_window_t)
    (start_row start_col i : Z) (response : log_response_t)
  : option log_response_t :=
  for_each (blob_detect_tap window start_row start_col i)
           (loop_indices BLOB_FILTER_WIDTH) response.

(** The loop labelled [blob_detect_row]. *)
Definition blob_detect_row (window : monochrome_window_t)
    (start_row start_col : Z) (response : log_response_t)
  : option log_response_t :=
  for_each (blob_detect_col window start_row start_col)
           (loop_indices BLOB_FILTER_HEIGHT) response.

(** The value of [response] when the loops are left. *)
Definition log_response (window : monochrome_window_t)
    (start_row start_col : Z) : option log_response_t :=
  blob_detect_row window start_row start_col 0.

Definition compute_blob_detection (window : monochrome_window_t)
    (start_row start_col : Z) : option blob_detection_t :=
  response ← log_response window start_row start_col;
  Some (log_ge response LOG_RESPONSE_THRESHOLD).

(** ** Vocabulary of the specification *)

(** A window has exactly [BLOB_FILTER_HEIGHT] rows of [BLOB_FILTER_WIDTH]
    pixels. *)
Definition window_ok (window : monochrome_window_t) : Prop :=
  length window = Z.to_nat BLOB_FILTER_HEIGHT ∧
  Forall (λ line, length line = Z.to_nat BLOB_FILTER_WIDTH) window.

(** An offset, or a kernel index, of the contract: a number of [[0, K)]. *)
Definition in_kernel (k : Z) : Prop := 0 <= k < BLOB_FILTER_HEIGHT.

(** The pixel at a coordinate of the window, and the weight [kernel[i][j]],
    as total functions. *)
Definition pixel (window : monochrome_window_t) (row col : Z) : monochrome_t :=
  default false (window_get window row col).
Definition weight (i j : Z) : log_response_t := default 0 (filter_get i j).

(** The kernel indices, in the order in which the loops visit them. *)
Definition all_taps : list (Z * Z) :=
  i ← loop_indices BLOB_FILTER_HEIGHT;
  pair i <$> loop_indices BLOB_FILTER_WIDTH.

Definition tap_weight (t : Z * Z) : log_response_t := weight t.1 t.2.

(** Whether the window pixel that tap [t] reads is on, with the wrapped
    coordinate written as a true modulo. *)
Definition tap_on (window : monochrome_window_t) (start_row start_col : Z)
    (t : Z * Z) : bool :=
  pixel window ((start_row + t.1) mod BLOB_FILTER_HEIGHT)
               ((start_col + t.2) mod BLOB_FILTER_WIDTH).

Definition sumZ (l : list Z) : Z := foldr Z.add 0 l.

(** What one tap adds to the response. *)
Definition tap_value (window : monochrome_window_t) (start_row start_col : Z)
    (t : Z * Z) : Z :=
  if tap_on window start_row start_col t then tap_weight t else 0.

(** The response as the specification words it: the sum of [kernel[i][j]]
    over the kernel indices whose wrapped window pixel is 1, computed in the
    integers (no wrap-around). *)
Definition spec_response_over (taps : list (Z * Z))
    (window : monochrome_window_t) (start_row start_col : Z) : Z :=
  sumZ (tap_weight <$>
        filter (λ t, tap_on window start_row start_col t = true) taps).

Definition spec_response : monochrome_window_t → Z → Z → Z :=
  spec_response_over all_taps.

(** The accumulator after the first [n] taps of the two loops. *)
Definition response_after (n : nat) (window : monochrome_window_t)
    (start_row start_col : Z) : option log_response_t :=
  for_each (λ t, blob_detect_tap window start_row start_col t.1 t.2)
           (take n all_taps) 0.

(** What the negative, and the positive, weights of some taps add up to. *)
Definition neg_part (taps : list (Z * Z)) : Z :=
  sumZ ((λ t, Z.min 0 (tap_weight t)) <$> taps).
Definition pos_part (taps : list (Z * Z)) : Z :=
  sumZ ((λ t, Z.max 0 (tap_weight t)) <$> taps).

(** [window[row][col] = value] *)
Definition set_pixel (window : monochrome_window_t) (row col : Z)
    (value : monochrome_t) : monochrome_window_t :=
  alter (λ line, <[Z.to_nat col := value]> line) (Z.to_nat row) window.

(** The window shifted cyclically up by [start_row] rows and left by
    [start_col] columns. *)
Definition rotate_window (window : monochrome_window_t)
    (start_row start_col : Z) : monochrome_window_t :=
  (λ i, (λ j, pixel window ((start_row + i) mod BLOB_FILTER_HEIGHT)
                           ((start_col + j) mod BLOB_FILTER_WIDTH))
        <$> loop_indices BLOB_FILTER_WIDTH)
  <$> loop_indices BLOB_FILTER_HEIGHT.

(** ** Windows and images of the testable properties *)

Definition zero_window : monochrome_window_t := replicate 5 (replicate 5 false).
Definition ones_window : monochrome_window_t := replicate 5 (replicate 5 true).

(** Pixels on at the centre and at the four positions of the cross. *)
Definition peak_window : monochrome_window_t :=
  [ [false; false; false; false; false];
    [false; false; true;  false; false];
    [false; true;  true;  true;  false];
    [false; false; true;  false; false];
    [false; false; false; false; false] ].

(** The 7x7 image with one 5x5 square of on pixels centred at (3,3). *)
Definition blob_image : list (list monochrome_t) :=
  [ replicate 7 false ] ++
  replicate 5 ([false] ++ replicate 5 true ++ [false]) ++
  [ replicate 7 false ].

(** Modelled from the spec: the window source ([windowfetch.h]) is absent;
    it produces, for a position of the image, the window centred on that
    position.  What it supplies for the coordinates that fall outside of the
    image is left open: a window matches the image at [(r, c)] when it
    carries the image's pixel wherever the image has one. *)
Definition window_at (image : list (list monochrome_t)) (r c : Z)
    (window : monochrome_window_t) : Prop :=
  window_ok window ∧
  ∀ i j b, in_kernel i → in_kernel j →
    array2_get image (r - 2 + i) (c - 2 + j) = Some b →
    pixel window i j = b.

(** The largest response a window matching [image] at [(r, c)] can have:
    outside of the image only the positive weights are counted. *)
Definition response_bound (image : list (list monochrome_t)) (r c : Z) : Z :=
  sumZ ((λ t, match array2_get image (r - 2 + t.1) (c - 2 + t.2) with
              | Some true => tap_weight t
              | Some false => 0
              | None => Z.max 0 (tap_weight t)
              end) <$> all_taps).

(** ** The response as the specification reads it

    These definitions use nothing of the embedding of the function: the
    kernel indices are written out, and an array is read by position, with a
    default where it has no element. *)
Definition kernel_indices : list (Z * Z) :=
  [ (0, 0);  (0, 1);  (0, 2);  (0, 3);  (0, 4);
    (1, 0);  (1, 1);  (1, 2);  (1, 3);  (1, 4);
    (2, 0);  (2, 1);  (2, 2);  (2, 3);  (2, 4);
    (3, 0);  (3, 1);  (3, 2);  (3, 3);  (3, 4);
    (4, 0);  (4, 1);  (4, 2);  (4, 3);  (4, 4) ].

Definition entry_at {A} (default : A) (a : list (list A)) (row col : Z) : A :=
  nth (Z.to_nat col) (nth (Z.to_nat row) a []) default.

(** Whether [window[(start_row + i) mod 5][(start_col + j) mod 5]] is 1. *)
Definition wrapped_pixel_on (window : list (list bool))
    (start_row start_col : Z) (t : Z * Z) : bool :=
  entry_at false window ((start_row + t.1) mod 5) ((start_col + t.2) mod 5).

(** The sum of [kernel[i][j]] over the kernel indices whose wrapped window
    pixel is 1, in the integers; and the same sum of the written literals,
    in ten-thousandths. *)
Definition claimed_response (window : list (list bool))
    (start_row start_col : Z) : Z :=
  sumZ (map (λ t, entry_at 0 LOG_FILTER t.1 t.2)
            (List.filter (wrapped_pixel_on window start_row start_col)
                         kernel_indices)).

Definition claimed_literal_sum (window : list (list bool))
    (start_row start_col : Z) : Z :=
  sumZ (map (λ t, entry_at 0 LOG_FILTER_literals t.1 t.2)
            (List.filter (wrapped_pixel_on window start_row start_col)
                         kernel_indices)).

(** Two windows for the comparison of responses: in the first, one pixel
    of the cross is off and a corner and a diagonal neighbour of the centre
    are on; the second has the whole peak pattern and the same corner. *)
Definition dented_window : monochrome_window_t :=
  [ [true;  false; false; false; false];
    [false; true;  true;  false; false];
    [false; true;  true;  true;  false];
    [false; false; false; false; false];
    [false; false; false; false; false] ].
Definition fuller_window : monochrome_window_t :=
  [ [true;  false; false; false; false];
    [false; false; true;  false; false];
    [false; true;  true;  true;  false];
    [false; false; true;  false; false];
    [false; false; false; false; false] ].

(** ** Vocabulary of the further properties *)

(** The loops run over an arbitrary sequence of taps.  In the synthesised
    design the loops are unrolled and the order of the additions is the
    tool's choice. *)
Definition response_over (taps : list (Z * Z)) (window : monochrome_window_t)
    (start_row start_col : Z) : option log_response_t :=
  for_each (λ t, blob_detect_tap window start_row start_col t.1 t.2) taps 0.

(** The centre of the kernel and the four taps of the cross around it. *)
Definition centre_tap : Z * Z := (2, 2).
Definition cross_taps : list (Z * Z) := [(1, 2); (2, 1); (2, 3); (3, 2)].

(** How many of some taps read a pixel that is on. *)
Definition count_on (window : monochrome_window_t) (start_row start_col : Z)
    (taps : list (Z * Z)) : Z :=
  sumZ ((λ t, if tap_on window start_row start_col t then 1 else 0) <$> taps).


(** The window mirrored at its diagonal, upside down, and left to right. *)
Definition transpose_window (window : monochrome_window_t)
  : monochrome_window_t :=
  (λ i, (λ j, pixel window j i) <$> loop_indices BLOB_FILTER_HEIGHT)
  <$> loop_indices BLOB_FILTER_WIDTH.
Definition flip_rows (window : monochrome_window_t) : monochrome_window_t :=
  reverse window.
Definition flip_cols (window : monochrome_window_t) : monochrome_window_t :=
  reverse <$> window.

(** The literal written for [kernel[i][j]], in ten-thousandths, and the
    response computed with the literals themselves instead of the values
    they are stored as. *)
Definition literal_at (i j : Z) : Z :=
  default 0 (array2_get LOG_FILTER_literals i j).
Definition tap_literal (window : monochrome_window_t) (start_row start_col : Z)
    (t : Z * Z) : Z :=
  if tap_on window start_row start_col t then literal_at t.1 t.2 else 0.
Definition decimal_response (window : monochrome_window_t)
    (start_row start_col : Z) : Q :=
  literal (sumZ (tap_literal window start_row start_col <$> all_taps)).

(** The taps of negative weight, by the literal written for them: the
    corners (-0.0239), the rest of the border but for the middle of each
    side (-0.0460), the middle of each side (-0.0499) and the four
    diagonal neighbours of the centre (-0.0061). *)
Definition corner_taps : list (Z * Z) := [(0, 0); (0, 4); (4, 0); (4, 4)].
Definition border_taps : list (Z * Z) :=
  [(0, 1); (0, 3); (1, 0); (1, 4); (3, 0); (3, 4); (4, 1); (4, 3)].
Definition side_taps : list (Z * Z) := [(0, 2); (2, 0); (2, 4); (4, 2)].
Definition diagonal_taps : list (Z * Z) := [(1, 1); (1, 3); (3, 1); (3, 3)].

(** Whether the threshold test on the stored values and the test
    [0.4900 <= sum] on the literals agree, for given numbers of on pixels
    under the taps of each kind. *)
Definition decisions_agree
    (corners borders sides diagonals crosses centres : Z) : bool :=
  Bool.eqb
    (LOG_RESPONSE_THRESHOLD <=?
       -392 * corners + -754 * borders + -818 * sides + -100 * diagonals
       + 1512 * crosses + 5213 * centres)
    (4900 <=?
       -239 * corners + -460 * borders + -499 * sides + -61 * diagonals
       + 923 * crosses + 3182 * centres).

Definition decisions_agree_everywhere : bool :=
  forallb (λ corners, forallb (λ borders, forallb (λ sides,
  forallb (λ diagonals, forallb (λ crosses, forallb (λ centres,
    decisions_agree corners borders sides diagonals crosses centres)
  (seqZ 0 2)) (seqZ 0 5)) (seqZ 0 5)) (seqZ 0 5)) (seqZ 0 9)) (seqZ 0 5).

(** ** Indices and array accesses *)

Lemma wrap_index_mod (start k : Z) :
  in_kernel start → in_kernel k →
  wrap_index start k BLOB_FILTER_HEIGHT = (start + k) mod BLOB_FILTER_HEIGHT.
Proof.
  unfold in_kernel, wrap_index, BLOB_FILTER_HEIGHT. intros Hs Hk.
  destruct (Z.ltb_spec (start + k) 5).
  - symmetry. apply Z.mod_small. lia.
  - apply (Z.mod_unique _ _ 1); lia.
Qed.

(** With [start_row = 3], tap row 0 reads window row 3 and tap row 2 wraps
    to window row 0. *)
Example wrap_index_3_0 : wrap_index 3 0 BLOB_FILTER_HEIGHT = 3.
Proof. reflexivity. Qed.

Example wrap_index_3_2 : wrap_index 3 2 BLOB_FILTER_HEIGHT = 0.
Proof. reflexivity. Qed.

Lemma mod_in_kernel (z : Z) : in_kernel (z mod BLOB_FILTER_HEIGHT).
Proof. unfold in_kernel, BLOB_FILTER_HEIGHT. apply Z.mod_pos_bound. lia. Qed.

Lemma in_kernel_cases (k : Z) :
  in_kernel k → k = 0 ∨ k = 1 ∨ k = 2 ∨ k = 3 ∨ k = 4.
Proof. unfold in_kernel, BLOB_FILTER_HEIGHT. lia. Qed.

Lemma array2_get_is_Some {A} (a : list (list A)) (h w : nat) (row col : Z) :
  length a = h → Forall (λ line, length line = w) a →
  0 <= row < Z.of_nat h → 0 <= col < Z.of_nat w →
  is_Some (array2_get a row col).
Proof.
  intros Hh Hw Hr Hc. unfold array2_get.
  destruct (Z.ltb_spec row 0); [lia|]. destruct (Z.ltb_spec col 0); [lia|].
  simpl.
  destruct (lookup_lt_is_Some_2 a (Z.to_nat row)) as [line Hline]; [lia|].
  rewrite Hline. simpl. apply lookup_lt_is_Some_2.
  rewrite Forall_lookup in Hw. rewrite (Hw _ _ Hline). lia.
Qed.

Lemma array2_get_None {A} (a : list (list A)) (h w : nat) (row col : Z) :
  length a = h → Forall (λ line, length line = w) a →
  ¬ (0 <= row < Z.of_nat h ∧ 0 <= col < Z.of_nat w) →
  array2_get a row col = None.
Proof.
  intros Hh Hw Hout. unfold array2_get.
  destruct (Z.ltb_spec row 0); [done|]. destruct (Z.ltb_spec col 0); [done|].
  simpl. destruct (a !! Z.to_nat row) as [line|] eqn:Hline; [|done]. simpl.
  apply lookup_ge_None_2.
  rewrite Forall_lookup in Hw. rewrite (Hw _ _ Hline).
  apply lookup_lt_Some in Hline. lia.
Qed.

Lemma window_get_pixel (window : monochrome_window_t) (row col : Z) :
  window_ok window → in_kernel row → in_kernel col →
  window_get window row col = Some (pixel window row col).
Proof.
  intros [Hh Hw] Hr Hc. unfold pixel, window_get.
  destruct (array2_get_is_Some window _ _ row col Hh Hw) as [b Hb];
    [done..|]. by rewrite Hb.
Qed.

Lemma filter_get_weight (i j : Z) :
  in_kernel i → in_kernel j → filter_get i j = Some (weight i j).
Proof.
  intros Hi Hj.
  destruct (in_kernel_cases i Hi) as [->|[->|[->|[->| ->]]]];
  destruct (in_kernel_cases j Hj) as [->|[->|[->|[->| ->]]]]; reflexivity.
Qed.

Lemma all_taps_in_kernel :
  Forall (λ t : Z * Z, in_kernel t.1 ∧ in_kernel t.2) all_taps.
Proof. repeat constructor; simpl; unfold BLOB_FILTER_HEIGHT; lia. Qed.

Lemma elem_of_all_taps (i j : Z) :
  in_kernel i → in_kernel j → (i, j) ∈ all_taps.
Proof.
  intros Hi Hj.
  destruct (in_kernel_cases i Hi) as [->|[->|[->|[->| ->]]]];
  destruct (in_kernel_cases j Hj) as [->|[->|[->|[->| ->]]]];
  vm_compute; repeat (first [left; reflexivity | right]).
Qed.

(** ** The loops *)

Lemma for_each_app {A I} (body : I → A → option A) (l1 l2 : list I) (acc : A) :
  for_each body (l1 ++ l2) acc = for_each body l1 acc ≫= for_each body l2.
Proof.
  revert acc. induction l1 as [|k l1 IH]; intros acc; simpl; [done|].
  destruct (body k acc) as [acc'|]; simpl; [apply IH | done].
Qed.

Lemma for_each_fmap {A I J} (f : J → I) (body : I → A → option A)
    (l : list J) (acc : A) :
  for_each body (f <$> l) acc = for_each (λ k, body (f k)) l acc.
Proof.
  revert acc. induction l as [|k l IH]; intros acc; simpl; [done|].
  destruct (body (f k) acc) as [acc'|]; simpl; [apply IH | done].
Qed.

Lemma for_each_nested {A I J} (body : I → J → A → option A)
    (rows : list I) (cols : list J) (acc : A) :
  for_each (λ i, for_each (body i) cols) rows acc =
  for_each (λ t, body t.1 t.2) (i ← rows; pair i <$> cols) acc.
Proof.
  revert acc. induction rows as [|i rows IH]; intros acc; [done|].
  change (i ← i :: rows; pair i <$> cols)
    with ((pair i <$> cols) ++ (i ← rows; pair i <$> cols)).
  rewrite for_each_app, for_each_fmap. simpl.
  destruct (for_each (body i) cols acc) as [acc'|]; simpl; [apply IH | done].
Qed.

Lemma log_response_flat (window : monochrome_window_t) (start_row start_col : Z) :
  log_response window start_row start_col =
  response_after 25 window start_row start_col.
Proof.
  unfold log_response, blob_detect_row, blob_detect_col, response_after.
  rewrite for_each_nested. reflexivity.
Qed.

Lemma log_wrap_in_range (z : Z) : log_in_range z → log_wrap z = z.
Proof.
  unfold log_in_range, ap_fixed.in_range, ap_fixed.min_raw, ap_fixed.max_raw,
    log_wrap, ap_fixed.wrap, LOG_NUM_BITS.
  change (2 ^ (16 - 1)) with 32768. change (2 ^ 16) with 65536.
  intros Hz. rewrite Z.mod_small; lia.
Qed.

Lemma blob_detect_tap_eq (window : monochrome_window_t)
    (start_row start_col i j : Z) (response : log_response_t) :
  window_ok window → in_kernel start_row → in_kernel start_col →
  in_kernel i → in_kernel j →
  blob_detect_tap window start_row start_col i j response =
  Some (if tap_on window start_row start_col (i, j)
        then log_add response (weight i j) else response).
Proof.
  intros Hw Hsr Hsc Hi Hj. unfold blob_detect_tap, tap_on.
  change BLOB_FILTER_WIDTH with BLOB_FILTER_HEIGHT.
  rewrite !wrap_index_mod by done. simpl.
  rewrite window_get_pixel by auto using mod_in_kernel. simpl.
  destruct (pixel _ _ _); [|done].
  rewrite filter_get_weight by done. done.
Qed.

(** ** Sums of weights *)

Lemma sumZ_cons (x : Z) (l : list Z) : sumZ (x :: l) = x + sumZ l.
Proof. reflexivity. Qed.

Ltac sum_step := rewrite ?fmap_cons, ?sumZ_cons in *.

Lemma neg_part_cons (t : Z * Z) (taps : list (Z * Z)) :
  neg_part (t :: taps) = Z.min 0 (tap_weight t) + neg_part taps.
Proof. reflexivity. Qed.

Lemma pos_part_cons (t : Z * Z) (taps : list (Z * Z)) :
  pos_part (t :: taps) = Z.max 0 (tap_weight t) + pos_part taps.
Proof. reflexivity. Qed.

Lemma neg_part_nonpos (taps : list (Z * Z)) : neg_part taps <= 0.
Proof.
  induction taps as [|t taps IH]; [done|]. rewrite neg_part_cons. lia.
Qed.

Lemma pos_part_nonneg (taps : list (Z * Z)) : 0 <= pos_part taps.
Proof.
  induction taps as [|t taps IH]; [done|]. rewrite pos_part_cons. lia.
Qed.

Lemma neg_part_take (n : nat) (taps : list (Z * Z)) :
  neg_part taps <= neg_part (take n taps).
Proof.
  revert n. induction taps as [|t taps IH]; intros [|n]; try done.
  - apply (neg_part_nonpos (t :: taps)).
  - specialize (IH n). rewrite firstn_cons, !neg_part_cons. lia.
Qed.

Lemma pos_part_take (n : nat) (taps : list (Z * Z)) :
  pos_part (take n taps) <= pos_part taps.
Proof.
  revert n. induction taps as [|t taps IH]; intros [|n]; try done.
  - apply (pos_part_nonneg (t :: taps)).
  - specialize (IH n). rewrite firstn_cons, !pos_part_cons. lia.
Qed.

Lemma sum_tap_value_bounds (window : monochrome_window_t)
    (start_row start_col : Z) (taps : list (Z * Z)) :
  neg_part taps <= sumZ (tap_value window start_row start_col <$> taps)
    <= pos_part taps.
Proof.
  induction taps as [|t taps IH]; [done|].
  rewrite neg_part_cons, pos_part_cons. sum_step.
  unfold tap_value at 1 3. destruct (tap_on _ _ _ t); lia.
Qed.

Lemma sumZ_pointwise_le {X} (f g : X → Z) (l : list X) :
  Forall (λ x, f x <= g x) l → sumZ (f <$> l) <= sumZ (g <$> l).
Proof. induction 1 as [|x l Hx _ IH]; [done|]. sum_step. lia. Qed.

Lemma sumZ_pointwise_eq {X} (f g : X → Z) (l : list X) :
  Forall (λ x, f x = g x) l → sumZ (f <$> l) = sumZ (g <$> l).
Proof. induction 1 as [|x l Hx _ IH]; [done|]. sum_step. lia. Qed.

Lemma spec_response_over_tap_value (taps : list (Z * Z))
    (window : monochrome_window_t) (start_row start_col : Z) :
  spec_response_over taps window start_row start_col =
  sumZ (tap_value window start_row start_col <$> taps).
Proof.
  unfold spec_response_over.
  induction taps as [|t taps IH]; [done|].
  rewrite filter_cons. sum_step. unfold tap_value at 1.
  destruct (decide (tap_on window start_row start_col t = true)) as [Hon|Hoff].
  - rewrite Hon. sum_step. lia.
  - destruct (tap_on _ _ _ t); [congruence | lia].
Qed.

(** ** The accumulation is exact *)

Lemma for_each_tap_exact (window : monochrome_window_t)
    (start_row start_col : Z) (taps : list (Z * Z)) (response : log_response_t) :
  window_ok window → in_kernel start_row → in_kernel start_col →
  Forall (λ t : Z * Z, in_kernel t.1 ∧ in_kernel t.2) taps →
  ap_fixed.min_raw LOG_NUM_BITS <= response + neg_part taps →
  response + pos_part taps <= ap_fixed.max_raw LOG_NUM_BITS →
  for_each (λ t, blob_detect_tap window start_row start_col t.1 t.2)
           taps response =
  Some (response + sumZ (tap_value window start_row start_col <$> taps)).
Proof.
  intros Hw Hsr Hsc Htaps. revert response.
  induction Htaps as [|[i j] taps [Hi Hj] _ IH]; intros response Hlo Hhi.
  { simpl. f_equal. lia. }
  simpl in Hi, Hj. rewrite neg_part_cons in Hlo. rewrite pos_part_cons in Hhi.
  pose proof (neg_part_nonpos taps) as Hneg.
  pose proof (pos_part_nonneg taps) as Hpos.
  cbn [for_each]. rewrite blob_detect_tap_eq by done. sum_step.
  unfold tap_value at 1. unfold tap_weight in *. cbn [fst snd mbind option_bind] in *.
  destruct (tap_on window start_row start_col (i, j)).
  - unfold log_add, ap_fixed.add. fold log_wrap.
    rewrite log_wrap_in_range.
    + rewrite IH by lia. f_equal; lia.
    + unfold log_in_range, ap_fixed.in_range. lia.
  - rewrite IH by lia. f_equal; lia.
Qed.

Lemma neg_part_all_taps : neg_part all_taps = -11272.
Proof. reflexivity. Qed.

Lemma pos_part_all_taps : pos_part all_taps = 11261.
Proof. reflexivity. Qed.

Lemma response_after_exact (n : nat) (window : monochrome_window_t)
    (start_row start_col : Z) :
  window_ok window → in_kernel start_row → in_kernel start_col →
  response_after n window start_row start_col =
  Some (spec_response_over (take n all_taps) window start_row start_col).
Proof.
  intros Hw Hsr Hsc. unfold response_after.
  pose proof (neg_part_take n all_taps) as Hneg.
  pose proof (pos_part_take n all_taps) as Hpos.
  rewrite neg_part_all_taps in Hneg. rewrite pos_part_all_taps in Hpos.
  rewrite for_each_tap_exact; try done.
  - by rewrite spec_response_over_tap_value.
  - apply Forall_take, all_taps_in_kernel.
  - change (ap_fixed.min_raw LOG_NUM_BITS) with (-32768). lia.
  - change (ap_fixed.max_raw LOG_NUM_BITS) with 32767. lia.
Qed.

Lemma log_response_exact (window : monochrome_window_t) (start_row start_col : Z) :
  window_ok window → in_kernel start_row → in_kernel start_col →
  log_response window start_row start_col =
  Some (spec_response window start_row start_col).
Proof.
  intros Hw Hsr Hsc. rewrite log_response_flat.
  by rewrite response_after_exact.
Qed.

Lemma compute_blob_detection_exact (window : monochrome_window_t)
    (start_row start_col : Z) :
  window_ok window → in_kernel start_row → in_kernel start_col →
  compute_blob_detection window start_row start_col =
  Some (LOG_RESPONSE_THRESHOLD <=? spec_response window start_row start_col).
Proof.
  intros Hw Hsr Hsc. unfold compute_blob_detection.
  by rewrite log_response_exact.
Qed.

Lemma spec_response_bounds (taps : list (Z * Z)) (window : monochrome_window_t)
    (start_row start_col : Z) :
  neg_part taps <= spec_response_over taps window start_row start_col
    <= pos_part taps.
Proof. rewrite spec_response_over_tap_value. apply sum_tap_value_bounds. Qed.

(** ** Properties of the evaluator *)

(** The response of the specification and the embedded one. *)

Lemma entry_at_array2_get {A} (d x : A) (a : list (list A)) (row col : Z) :
  array2_get a row col = Some x → entry_at d a row col = x.
Proof.
  unfold array2_get, entry_at.
  destruct ((row <? 0) || (col <? 0)); [done|].
  rewrite !nth_lookup.
  destruct (a !! Z.to_nat row) as [line|]; [|done]. cbn.
  by intros ->.
Qed.

Lemma sum_filter_if {X} (p : X → bool) (f : X → Z) (l : list X) :
  sumZ (map f (List.filter p l))
  = sumZ ((λ x, if p x then f x else 0) <$> l).
Proof.
  induction l as [|x l IH]; [done|]. cbn [List.filter]. sum_step.
  destruct (p x); [cbn [map]; sum_step|]; lia.
Qed.

Lemma wrapped_pixel_on_tap_on (window : monochrome_window_t)
    (start_row start_col : Z) (t : Z * Z) :
  window_ok window →
  wrapped_pixel_on window start_row start_col t
  = tap_on window start_row start_col t.
Proof.
  intros Hw. unfold wrapped_pixel_on, tap_on.
  apply entry_at_array2_get.
  change 5 with BLOB_FILTER_HEIGHT.
  change BLOB_FILTER_WIDTH with BLOB_FILTER_HEIGHT.
  apply window_get_pixel; auto using mod_in_kernel.
Qed.

Lemma claimed_response_exact (window : monochrome_window_t)
    (start_row start_col : Z) :
  window_ok window →
  claimed_response window start_row start_col
  = spec_response window start_row start_col.
Proof.
  intros Hw. unfold claimed_response, spec_response.
  rewrite spec_response_over_tap_value, sum_filter_if.
  change kernel_indices with all_taps. apply sumZ_pointwise_eq.
  eapply Forall_impl; [apply all_taps_in_kernel|].
  intros [i j] [Hi Hj]. cbn beta.
  rewrite wrapped_pixel_on_tap_on by done.
  unfold tap_value, tap_weight. cbn [fst snd] in *.
  rewrite (entry_at_array2_get 0 (weight i j)); [done|].
  by apply filter_get_weight.
Qed.

(** C1.  For a 5x5 window and offsets in [[0,5)], [compute_blob_detection]
    returns a decision, and the decision is true exactly when the sum of
    [kernel[i][j]] over the kernel indices [(i, j)] of [[0,5) x [0,5)] whose
    window pixel [window[(start_row+i) mod 5][(start_col+j) mod 5]] is 1
    reaches the threshold; the conditional subtraction of the source
    computes that modulo, for rows and for columns. *)
Theorem C1_decision_is_thresholded_kernel_sum
    (window : monochrome_window_t) (start_row start_col : Z) :
  window_ok window → 0 <= start_row < 5 → 0 <= start_col < 5 →
  (∃ decision : blob_detection_t,
     compute_blob_detection window start_row start_col = Some decision ∧
     (decision = true ↔
      LOG_RESPONSE_THRESHOLD
      <= claimed_response window start_row start_col)) ∧
  (∀ i, 0 <= i < 5 →
     wrap_index start_row i BLOB_FILTER_HEIGHT = (start_row + i) mod 5) ∧
  (∀ j, 0 <= j < 5 →
     wrap_index start_col j BLOB_FILTER_WIDTH = (start_col + j) mod 5).
Proof.
  intros Hw Hsr Hsc. split; [|split].
  - eexists. split; [by apply compute_blob_detection_exact|].
    rewrite claimed_response_exact by done. apply Z.leb_le.
  - intros i Hi. by apply wrap_index_mod.
  - intros j Hj. by apply (wrap_index_mod start_col j).
Qed.

Lemma C1_decision_witness :
  (∃ decision : blob_detection_t,
     compute_blob_detection peak_window 3 1 = Some decision ∧
     (decision = true ↔
      LOG_RESPONSE_THRESHOLD <= claimed_response peak_window 3 1)) ∧
  (∀ i, 0 <= i < 5 → wrap_index 3 i BLOB_FILTER_HEIGHT = (3 + i) mod 5) ∧
  (∀ j, 0 <= j < 5 → wrap_index 1 j BLOB_FILTER_WIDTH = (1 + j) mod 5).
Proof.
  apply (C1_decision_is_thresholded_kernel_sum peak_window 3 1).
  - split; [reflexivity | repeat constructor].
  - lia.
  - lia.
Defined.

(** C9.  With both offsets in [[0,5)], every window access of
    [compute_blob_detection] is in bounds: for all kernel indices [i], [j] in
    [[0,5)] the computed row and column lie in [[0,5)], and the lookup in a
    5x5 window yields a pixel. *)
Theorem C9_window_accesses_in_bounds
    (window : monochrome_window_t) (start_row start_col i j : Z) :
  window_ok window → in_kernel start_row → in_kernel start_col →
  in_kernel i → in_kernel j →
  let row := wrap_index start_row i BLOB_FILTER_HEIGHT in
  let col := wrap_index start_col j BLOB_FILTER_WIDTH in
  0 <= row < BLOB_FILTER_HEIGHT ∧ 0 <= col < BLOB_FILTER_WIDTH ∧
  window_get window row col ≠ None.
Proof.
  intros Hw Hsr Hsc Hi Hj row col. subst row col.
  change BLOB_FILTER_WIDTH with BLOB_FILTER_HEIGHT.
  rewrite !wrap_index_mod by done.
  pose proof (mod_in_kernel (start_row + i)) as Hr.
  pose proof (mod_in_kernel (start_col + j)) as Hc.
  split; [exact Hr|]. split; [exact Hc|].
  by rewrite window_get_pixel.
Qed.

Lemma C9_window_accesses_witness :
  let row := wrap_index 4 3 BLOB_FILTER_HEIGHT in
  let col := wrap_index 2 4 BLOB_FILTER_WIDTH in
  0 <= row < BLOB_FILTER_HEIGHT ∧ 0 <= col < BLOB_FILTER_WIDTH ∧
  window_get peak_window row col ≠ None.
Proof.
  apply (C9_window_accesses_in_bounds peak_window 4 2 3 4).
  - split; [reflexivity | repeat constructor].
  - unfold in_kernel, BLOB_FILTER_HEIGHT. lia.
  - unfold in_kernel, BLOB_FILTER_HEIGHT. lia.
  - unfold in_kernel, BLOB_FILTER_HEIGHT. lia.
  - unfold in_kernel, BLOB_FILTER_HEIGHT. lia.
Defined.

(** ** Raw values and the numbers they denote *)

Lemma log_to_Q_le (a b : log_response_t) :
  a <= b ↔ (log_to_Q a <= log_to_Q b)%Q.
Proof.
  unfold log_to_Q, ap_fixed.to_Q, ap_fixed.frac_bits, LOG_NUM_BITS,
    LOG_INTEGER_BITS.
  change (2 ^ (16 - 2)) with 16384.
  unfold Qle, Qdiv, Qmult, Qinv, inject_Z. simpl. lia.
Qed.

Lemma log_to_Q_lt (a b : log_response_t) :
  a < b ↔ (log_to_Q a < log_to_Q b)%Q.
Proof.
  unfold log_to_Q, ap_fixed.to_Q, ap_fixed.frac_bits, LOG_NUM_BITS,
    LOG_INTEGER_BITS.
  change (2 ^ (16 - 2)) with 16384.
  unfold Qlt, Qdiv, Qmult, Qinv, inject_Z. simpl. lia.
Qed.

Lemma log_to_Q_whole (z : Z) : (log_to_Q (z * 16384) == inject_Z z)%Q.
Proof.
  unfold log_to_Q, ap_fixed.to_Q, ap_fixed.frac_bits, LOG_NUM_BITS,
    LOG_INTEGER_BITS.
  change (2 ^ (16 - 2)) with 16384.
  unfold Qeq, Qdiv, Qmult, Qinv, inject_Z. simpl. lia.
Qed.

Lemma sublist_weight_bounds (taps taps' : list (Z * Z)) :
  taps `sublist_of` taps' →
  neg_part taps' <= sumZ (tap_weight <$> taps) <= pos_part taps'.
Proof.
  induction 1 as [|t l1 l2 _ IH|t l1 l2 _ IH].
  - done.
  - rewrite neg_part_cons, pos_part_cons. sum_step. lia.
  - rewrite neg_part_cons, pos_part_cons. lia.
Qed.

Lemma weight_bounds (i j : Z) :
  in_kernel i → in_kernel j → -818 <= weight i j <= 5213.
Proof.
  intros Hi Hj.
  destruct (in_kernel_cases i Hi) as [->|[->|[->|[->| ->]]]];
  destruct (in_kernel_cases j Hj) as [->|[->|[->|[->| ->]]]];
  vm_compute; split; discriminate.
Qed.

(** ** Changing and rotating a window *)

Lemma set_pixel_ok (window : monochrome_window_t) (row col : Z)
    (value : monochrome_t) :
  window_ok window → window_ok (set_pixel window row col value).
Proof.
  intros [Hh Hw]. unfold set_pixel, monochrome_window_t, monochrome_t in *.
  split.
  - by rewrite length_alter.
  - apply Forall_alter; [done|]. intros line _ Hline.
    by rewrite length_insert.
Qed.

Lemma pixel_set_pixel (window : monochrome_window_t) (row col row' col' : Z)
    (value : monochrome_t) :
  window_ok window → in_kernel row → in_kernel col →
  in_kernel row' → in_kernel col' →
  pixel (set_pixel window row col value) row' col' =
  if decide (row' = row ∧ col' = col) then value else pixel window row' col'.
Proof.
  intros Hw Hr Hc Hr' Hc'.
  pose proof (window_get_pixel window row' col' Hw Hr' Hc') as Hpx.
  destruct Hw as [_ Hw]. rewrite Forall_lookup in Hw.
  unfold pixel, window_get, array2_get, set_pixel in *.
  unfold monochrome_window_t, monochrome_t in *.
  unfold in_kernel, BLOB_FILTER_HEIGHT in *.
  destruct (Z.ltb_spec row' 0); [lia|]. destruct (Z.ltb_spec col' 0); [lia|].
  cbn [orb] in *. rewrite list_lookup_alter.
  destruct (window !! Z.to_nat row') as [line|] eqn:Hline; [|done].
  cbn [mbind option_bind] in Hpx.
  destruct (decide (Z.to_nat row = Z.to_nat row')) as [Heq|Hne].
  - assert (row' = row) as -> by lia. rewrite Hline. cbn.
    rewrite list_lookup_insert.
    assert (Z.to_nat col < length line)%nat as Hlen.
    { rewrite (Hw _ _ Hline). unfold BLOB_FILTER_WIDTH. lia. }
    destruct (decide (Z.to_nat col = Z.to_nat col' ∧ _)) as [[Hcol _]|Hcol].
    + assert (col' = col) as -> by lia. by rewrite decide_True.
    + rewrite decide_False by lia. done.
  - rewrite decide_False by lia. done.
Qed.

Lemma wrap_injective (start k k' : Z) :
  in_kernel k → in_kernel k' →
  (start + k') mod BLOB_FILTER_HEIGHT = (start + k) mod BLOB_FILTER_HEIGHT →
  k' = k.
Proof.
  unfold in_kernel, BLOB_FILTER_HEIGHT. intros Hk Hk' Heq.
  Z.div_mod_to_equations. lia.
Qed.

Lemma tap_on_set_pixel (window : monochrome_window_t)
    (start_row start_col i j : Z) (value : monochrome_t) (t : Z * Z) :
  window_ok window → in_kernel i → in_kernel j →
  in_kernel t.1 → in_kernel t.2 →
  tap_on (set_pixel window ((start_row + i) mod BLOB_FILTER_HEIGHT)
                           ((start_col + j) mod BLOB_FILTER_WIDTH) value)
         start_row start_col t =
  if decide (t = (i, j)) then value else tap_on window start_row start_col t.
Proof.
  intros Hw Hi Hj Ht1 Ht2. destruct t as [i' j']. simpl in Ht1, Ht2.
  unfold tap_on. cbn [fst snd]. change BLOB_FILTER_WIDTH with BLOB_FILTER_HEIGHT.
  rewrite pixel_set_pixel by auto using mod_in_kernel.
  destruct (decide (_ ∧ _)) as [[Hr Hc]|Hne].
  - apply wrap_injective in Hr; [|done..]. apply wrap_injective in Hc; [|done..].
    subst. by rewrite decide_True.
  - rewrite decide_False; [done|]. intros [= -> ->]. by apply Hne.
Qed.

Lemma rotate_window_ok (window : monochrome_window_t) (start_row start_col : Z) :
  window_ok (rotate_window window start_row start_col).
Proof. split; [reflexivity | repeat constructor]. Qed.

Lemma pixel_rotate_window (window : monochrome_window_t)
    (start_row start_col i j : Z) :
  in_kernel i → in_kernel j →
  pixel (rotate_window window start_row start_col) i j =
  pixel window ((start_row + i) mod BLOB_FILTER_HEIGHT)
               ((start_col + j) mod BLOB_FILTER_WIDTH).
Proof.
  intros Hi Hj.
  destruct (in_kernel_cases i Hi) as [->|[->|[->|[->| ->]]]];
  destruct (in_kernel_cases j Hj) as [->|[->|[->|[->| ->]]]]; reflexivity.
Qed.

Lemma tap_on_rotate_window (window : monochrome_window_t)
    (start_row start_col : Z) (t : Z * Z) :
  in_kernel t.1 → in_kernel t.2 →
  tap_on (rotate_window window start_row start_col) 0 0 t =
  tap_on window start_row start_col t.
Proof.
  intros Ht1 Ht2. unfold tap_on at 1. rewrite !Z.add_0_l.
  change BLOB_FILTER_WIDTH with BLOB_FILTER_HEIGHT.
  unfold in_kernel in Ht1, Ht2. rewrite !Z.mod_small by done.
  by apply pixel_rotate_window.
Qed.

Lemma in_kernel_0 : in_kernel 0.
Proof. unfold in_kernel, BLOB_FILTER_HEIGHT. lia. Qed.

Lemma tap_value_set_pixel (window : monochrome_window_t)
    (start_row start_col i j : Z) (t : Z * Z) :
  window_ok window → in_kernel i → in_kernel j →
  in_kernel t.1 → in_kernel t.2 →
  tap_value (set_pixel window ((start_row + i) mod BLOB_FILTER_HEIGHT)
                              ((start_col + j) mod BLOB_FILTER_WIDTH) true)
            start_row start_col t =
  if decide (t = (i, j)) then weight i j
  else tap_value window start_row start_col t.
Proof.
  intros Hw Hi Hj Ht1 Ht2. unfold tap_value.
  rewrite tap_on_set_pixel by done.
  destruct (decide (t = (i, j))) as [->|]; done.
Qed.

(** C7.  Turning on the window pixel that kernel tap [(i, j)] reads, all
    else fixed, never decreases the response when [kernel[i][j]] is not
    negative, and never increases it when [kernel[i][j]] is negative. *)
Theorem C7_response_monotone_in_pixels
    (window : monochrome_window_t) (start_row start_col i j : Z) :
  window_ok window → in_kernel start_row → in_kernel start_col →
  in_kernel i → in_kernel j →
  let row := (start_row + i) mod BLOB_FILTER_HEIGHT in
  let col := (start_col + j) mod BLOB_FILTER_WIDTH in
  ∃ before after : log_response_t,
    log_response window start_row start_col = Some before ∧
    log_response (set_pixel window row col true) start_row start_col
      = Some after ∧
    (0 <= weight i j → before <= after) ∧
    (weight i j < 0 → after <= before).
Proof.
  intros Hw Hsr Hsc Hi Hj row col. subst row col.
  eexists _, _. split; [by apply log_response_exact|].
  split; [apply log_response_exact; [by apply set_pixel_ok|done..]|].
  unfold spec_response. rewrite !spec_response_over_tap_value.
  split; intros Hsign; apply sumZ_pointwise_le;
    (eapply Forall_impl; [apply all_taps_in_kernel|]);
    intros t [Ht1 Ht2]; cbn beta;
    rewrite tap_value_set_pixel by done;
    (destruct (decide (t = (i, j))) as [->|]; [|done]);
    unfold tap_value, tap_weight; cbn [fst snd];
    destruct (tap_on window start_row start_col (i, j)); lia.
Qed.

Lemma C7_response_monotone_witness :
  let row := (1 + 1) mod BLOB_FILTER_HEIGHT in
  let col := (4 + 3) mod BLOB_FILTER_WIDTH in
  ∃ before after : log_response_t,
    log_response zero_window 1 4 = Some before ∧
    log_response (set_pixel zero_window row col true) 1 4 = Some after ∧
    (0 <= weight 1 3 → before <= after) ∧
    (weight 1 3 < 0 → after <= before).
Proof.
  apply (C7_response_monotone_in_pixels zero_window 1 4 1 3).
  - split; [reflexivity | repeat constructor].
  - unfold in_kernel, BLOB_FILTER_HEIGHT. lia.
  - unfold in_kernel, BLOB_FILTER_HEIGHT. lia.
  - unfold in_kernel, BLOB_FILTER_HEIGHT. lia.
  - unfold in_kernel, BLOB_FILTER_HEIGHT. lia.
Defined.

(** C10.  The offsets only rotate the correspondence between kernel and
    window: for a 5x5 window and offsets in [[0,5)],
    [compute_blob_detection window start_row start_col] is
    [compute_blob_detection window' 0 0], where
    [window'[i][j] = window[(start_row+i) mod 5][(start_col+j) mod 5]]. *)
Theorem C10_offsets_rotate_the_window
    (window : monochrome_window_t) (start_row start_col : Z) :
  window_ok window → in_kernel start_row → in_kernel start_col →
  compute_blob_detection window start_row start_col =
  compute_blob_detection (rotate_window window start_row start_col) 0 0.
Proof.
  intros Hw Hsr Hsc.
  rewrite !compute_blob_detection_exact
    by auto using rotate_window_ok, in_kernel_0.
  assert (spec_response (rotate_window window start_row start_col) 0 0
          = spec_response window start_row start_col) as Hsame;
    [|by rewrite Hsame].
  unfold spec_response.
  rewrite !spec_response_over_tap_value. apply sumZ_pointwise_eq.
  eapply Forall_impl; [apply all_taps_in_kernel|].
  intros t [Ht1 Ht2]. cbn beta. unfold tap_value.
  by rewrite tap_on_rotate_window.
Qed.

Lemma C10_offsets_rotate_witness :
  compute_blob_detection peak_window 2 3 =
  compute_blob_detection (rotate_window peak_window 2 3) 0 0.
Proof.
  apply (C10_offsets_rotate_the_window peak_window 2 3).
  - split; [reflexivity | repeat constructor].
  - unfold in_kernel, BLOB_FILTER_HEIGHT. lia.
  - unfold in_kernel, BLOB_FILTER_HEIGHT. lia.
Defined.

(** C6.  For the all-zero 5x5 window and any offsets in [[0,5)], the
    response is 0, which is below the threshold, and the decision is
    false. *)
Theorem C6_zero_window_is_rejected (start_row start_col : Z) :
  in_kernel start_row → in_kernel start_col →
  log_response zero_window start_row start_col = Some 0 ∧
  (log_to_Q 0 == 0)%Q ∧
  0 < LOG_RESPONSE_THRESHOLD ∧
  compute_blob_detection zero_window start_row start_col = Some false.
Proof.
  intros Hsr Hsc.
  destruct (in_kernel_cases _ Hsr) as [->|[->|[->|[->| ->]]]];
  destruct (in_kernel_cases _ Hsc) as [->|[->|[->|[->| ->]]]];
  repeat split.
Qed.

Lemma C6_zero_window_witness :
  log_response zero_window 4 2 = Some 0 ∧
  (log_to_Q 0 == 0)%Q ∧
  0 < LOG_RESPONSE_THRESHOLD ∧
  compute_blob_detection zero_window 4 2 = Some false.
Proof.
  apply (C6_zero_window_is_rejected 4 2).
  - unfold in_kernel, BLOB_FILTER_HEIGHT. lia.
  - unfold in_kernel, BLOB_FILTER_HEIGHT. lia.
Defined.

(** C8.  For a 5x5 window and offsets in [[0,5)], the accumulator never
    leaves the range of its type: after any number [n] of taps it holds the
    exact sum of the weights of the taps taken so far whose pixel is on (no
    addition has wrapped), a number of [[-2, 2)]; every weight of the
    kernel lies in [[-1, 1]]; and the weights of any selection of taps add
    up to a number strictly between -2 and 2. *)
Theorem C8_accumulator_stays_in_range
    (window : monochrome_window_t) (start_row start_col : Z) :
  window_ok window → in_kernel start_row → in_kernel start_col →
  (∀ n : nat, ∃ response : log_response_t,
     response_after n window start_row start_col = Some response ∧
     response
       = spec_response_over (take n all_taps) window start_row start_col ∧
     log_in_range response ∧
     (-2 <= log_to_Q response)%Q ∧ (log_to_Q response < 2)%Q) ∧
  log_response window start_row start_col
    = response_after 25 window start_row start_col ∧
  (∀ i j, in_kernel i → in_kernel j →
     (-1 <= log_to_Q (weight i j))%Q ∧ (log_to_Q (weight i j) <= 1)%Q) ∧
  (∀ taps, taps `sublist_of` all_taps →
     (-2 < log_to_Q (sumZ (tap_weight <$> taps)))%Q ∧
     (log_to_Q (sumZ (tap_weight <$> taps)) < 2)%Q).
Proof.
  intros Hw Hsr Hsc. split; [|split; [|split]].
  - intros n. eexists. split; [by apply response_after_exact|].
    split; [done|].
    pose proof (spec_response_bounds (take n all_taps) window
                  start_row start_col) as Hb.
    pose proof (neg_part_take n all_taps) as Hneg.
    pose proof (pos_part_take n all_taps) as Hpos.
    rewrite neg_part_all_taps in Hneg. rewrite pos_part_all_taps in Hpos.
    split; [|split].
    + unfold log_in_range, ap_fixed.in_range.
      change (ap_fixed.min_raw LOG_NUM_BITS) with (-32768).
      change (ap_fixed.max_raw LOG_NUM_BITS) with 32767. lia.
    + rewrite <- (log_to_Q_whole (-2)). apply (proj1 (log_to_Q_le _ _)). lia.
    + rewrite <- (log_to_Q_whole 2). apply (proj1 (log_to_Q_lt _ _)). lia.
  - apply log_response_flat.
  - intros i j Hi Hj. pose proof (weight_bounds i j Hi Hj) as Hb. split.
    + rewrite <- (log_to_Q_whole (-1)). apply (proj1 (log_to_Q_le _ _)). lia.
    + rewrite <- (log_to_Q_whole 1). apply (proj1 (log_to_Q_le _ _)). lia.
  - intros taps Hsub. pose proof (sublist_weight_bounds _ _ Hsub) as Hb.
    rewrite neg_part_all_taps, pos_part_all_taps in Hb. split.
    + rewrite <- (log_to_Q_whole (-2)). apply (proj1 (log_to_Q_lt _ _)). lia.
    + rewrite <- (log_to_Q_whole 2). apply (proj1 (log_to_Q_lt _ _)). lia.
Qed.

Lemma C8_accumulator_witness :
  (∀ n : nat, ∃ response : log_response_t,
     response_after n peak_window 2 1 = Some response ∧
     response = spec_response_over (take n all_taps) peak_window 2 1 ∧
     log_in_range response ∧
     (-2 <= log_to_Q response)%Q ∧ (log_to_Q response < 2)%Q) ∧
  log_response peak_window 2 1 = response_after 25 peak_window 2 1 ∧
  (∀ i j, in_kernel i → in_kernel j →
     (-1 <= log_to_Q (weight i j))%Q ∧ (log_to_Q (weight i j) <= 1)%Q) ∧
  (∀ taps, taps `sublist_of` all_taps →
     (-2 < log_to_Q (sumZ (tap_weight <$> taps)))%Q ∧
     (log_to_Q (sumZ (tap_weight <$> taps)) < 2)%Q).
Proof.
  apply (C8_accumulator_stays_in_range peak_window 2 1).
  - split; [reflexivity | repeat constructor].
  - unfold in_kernel, BLOB_FILTER_HEIGHT. lia.
  - unfold in_kernel, BLOB_FILTER_HEIGHT. lia.
Defined.

(** ** The format of [log_response_t] *)

Lemma log_wrap_range (z : Z) : log_in_range (log_wrap z).
Proof.
  unfold log_in_range, ap_fixed.in_range, ap_fixed.min_raw, ap_fixed.max_raw,
    log_wrap, ap_fixed.wrap, LOG_NUM_BITS.
  change (2 ^ (16 - 1)) with 32768. change (2 ^ 16) with 65536.
  pose proof (Z.mod_pos_bound (z + 32768) 65536). lia.
Qed.

Lemma log_to_Q_range (raw : log_response_t) :
  log_in_range raw ↔ (-2 <= log_to_Q raw)%Q ∧ (log_to_Q raw < 2)%Q.
Proof.
  rewrite <- (log_to_Q_whole (-2)), <- (log_to_Q_whole 2).
  rewrite <- log_to_Q_le, <- log_to_Q_lt.
  unfold log_in_range, ap_fixed.in_range.
  change (ap_fixed.min_raw LOG_NUM_BITS) with (-32768).
  change (ap_fixed.max_raw LOG_NUM_BITS) with 32767. lia.
Qed.

Lemma log_to_Q_step (raw : log_response_t) :
  (log_to_Q (raw + 1) - log_to_Q raw == 1 # 16384)%Q.
Proof.
  unfold log_to_Q, ap_fixed.to_Q, ap_fixed.frac_bits, LOG_NUM_BITS,
    LOG_INTEGER_BITS.
  change (2 ^ (16 - 2)) with 16384.
  unfold Qeq, Qminus, Qplus, Qopp, Qdiv, Qmult, Qinv, inject_Z. simpl. lia.
Qed.

(** C3, as the source has it.  [log_response_t], the type of the
    accumulator, of the weights and of the threshold, is a signed
    fixed-point format of 16 bits in total: 2 integer bits, the sign bit
    among them, and 14 fractional bits.  Its values are the multiples of
    2^-14 in [[-2, 2)]. *)
Theorem C3_log_response_format :
  LOG_NUM_BITS = 16 ∧ LOG_INTEGER_BITS = 2 ∧
  ap_fixed.frac_bits LOG_NUM_BITS LOG_INTEGER_BITS = 14 ∧
  (ap_fixed.resolution LOG_NUM_BITS LOG_INTEGER_BITS == 1 # 16384)%Q ∧
  (∀ z, log_in_range (log_wrap z)) ∧
  (∀ raw, log_in_range raw ↔ (-2 <= log_to_Q raw)%Q ∧ (log_to_Q raw < 2)%Q) ∧
  (∀ raw, (log_to_Q (raw + 1) - log_to_Q raw == 1 # 16384)%Q) ∧
  LOG_FILTER = map (map (λ l, log_of_double (literal l))) LOG_FILTER_literals ∧
  Forall (Forall log_in_range) LOG_FILTER ∧
  log_in_range LOG_RESPONSE_THRESHOLD.
Proof.
  split; [reflexivity|]. split; [reflexivity|]. split; [reflexivity|].
  split; [reflexivity|]. split; [exact log_wrap_range|].
  split; [exact log_to_Q_range|]. split; [exact log_to_Q_step|].
  split; [reflexivity|]. split.
  - repeat constructor; discriminate.
  - split; discriminate.
Qed.

(** C3, as claimed: the format does not have 16 fractional bits in a total
    of 18, and its resolution is not 2^-16. *)
Lemma C3_format_counterexample :
  ¬ (LOG_NUM_BITS = 18 ∧
     ap_fixed.frac_bits LOG_NUM_BITS LOG_INTEGER_BITS = 16 ∧
     (ap_fixed.resolution LOG_NUM_BITS LOG_INTEGER_BITS == 1 # 65536)%Q).
Proof. intros [Hwidth _]. discriminate Hwidth. Qed.

(** ** The peak-match window *)

(** C5, as the source has it.  For the peak-match window with offsets
    (0,0) the response is the sum of the centre weight and of the four
    cross weights as the kernel stores them, 0.3182 and 0.0923 rounded down
    to multiples of 2^-14: it is 11261 * 2^-14, less than 0.6874 by less
    than 5 * 2^-14, and at least the threshold, so the decision is true. *)
Theorem C5_peak_window_is_detected :
  weight 2 2 = log_of_double (literal 3182) ∧
  weight 1 2 = log_of_double (literal 923) ∧
  weight 2 1 = log_of_double (literal 923) ∧
  weight 2 3 = log_of_double (literal 923) ∧
  weight 3 2 = log_of_double (literal 923) ∧
  log_response peak_window 0 0
    = Some (weight 2 2 + weight 1 2 + weight 2 1 + weight 2 3 + weight 3 2) ∧
  log_response peak_window 0 0 = Some 11261 ∧
  (log_to_Q 11261 == 11261 # 16384)%Q ∧
  (literal 6874 - 5 * ap_fixed.resolution LOG_NUM_BITS LOG_INTEGER_BITS
     < log_to_Q 11261)%Q ∧
  (log_to_Q 11261 < literal 6874)%Q ∧
  LOG_RESPONSE_THRESHOLD = log_of_double (literal 4900) ∧
  LOG_RESPONSE_THRESHOLD <= 11261 ∧
  compute_blob_detection peak_window 0 0 = Some true.
Proof.
  repeat split;
    first [reflexivity | discriminate | vm_compute; reflexivity].
Qed.

(** C5, as claimed: the response of the peak-match window is not the
    number 0.6874, nor the value of the type that 0.6874 converts to. *)
Lemma C5_peak_response_counterexample :
  ∃ response : log_response_t,
    log_response peak_window 0 0 = Some response ∧
    ¬ (log_to_Q response == literal 6874)%Q ∧
    response ≠ log_of_double (literal 6874).
Proof. exists 11261. repeat split; discriminate. Qed.

(** ** Scanning the synthetic image *)

Lemma spec_response_le_bound (image : list (list monochrome_t)) (r c : Z)
    (window : monochrome_window_t) :
  window_at image r c window →
  spec_response window 0 0 <= response_bound image r c.
Proof.
  intros [_ Hmatch]. unfold spec_response, response_bound.
  rewrite spec_response_over_tap_value. apply sumZ_pointwise_le.
  eapply Forall_impl; [apply all_taps_in_kernel|].
  intros [i j] [Hi Hj]. cbn [fst snd] in *.
  unfold tap_value, tap_on. cbn [fst snd]. rewrite !Z.add_0_l.
  change BLOB_FILTER_WIDTH with BLOB_FILTER_HEIGHT.
  rewrite !Z.mod_small by done.
  destruct (array2_get image (r - 2 + i) (c - 2 + j)) as [b|] eqn:Himg.
  - rewrite (Hmatch i j b Hi Hj Himg). by destruct b.
  - destruct (pixel window i j); lia.
Qed.

Lemma blob_image_response_bound (r c : Z) :
  0 <= r < 7 → 0 <= c < 7 →
  response_bound blob_image r c < LOG_RESPONSE_THRESHOLD.
Proof.
  intros Hr Hc.
  assert (r = 0 ∨ r = 1 ∨ r = 2 ∨ r = 3 ∨ r = 4 ∨ r = 5 ∨ r = 6)
    as [->|[->|[->|[->|[->|[->| ->]]]]]] by lia;
  assert (c = 0 ∨ c = 1 ∨ c = 2 ∨ c = 3 ∨ c = 4 ∨ c = 5 ∨ c = 6)
    as [->|[->|[->|[->|[->|[->| ->]]]]]] by lia;
  reflexivity.
Qed.

Lemma ones_window_at_centre : window_at blob_image 3 3 ones_window.
Proof.
  split; [split; [reflexivity | repeat constructor]|].
  intros i j b Hi Hj.
  destruct (in_kernel_cases i Hi) as [->|[->|[->|[->| ->]]]];
  destruct (in_kernel_cases j Hj) as [->|[->|[->|[->| ->]]]];
  by intros [= <-].
Qed.

(** C2, as the source has it.  Scanning the 7x7 image that holds one 5x5
    square of on pixels centred at (3,3), with both offsets 0, yields false
    at every coordinate, (3,3) included, whatever the window source supplies
    outside of the image.  The window at (3,3) is the all-ones window; its
    response is the sum of the whole kernel, [-11 * 2^-14], which is below
    the threshold. *)
Theorem C2_scan_of_blob_image_detects_nothing
    (r c : Z) (window : monochrome_window_t) :
  0 <= r < 7 → 0 <= c < 7 → window_at blob_image r c window →
  compute_blob_detection window 0 0 = Some false ∧
  window_at blob_image 3 3 ones_window ∧
  log_response ones_window 0 0 = Some (sumZ (tap_weight <$> all_taps)) ∧
  sumZ (tap_weight <$> all_taps) = -11 ∧
  compute_blob_detection ones_window 0 0 = Some false.
Proof.
  intros Hr Hc Hat. split; [|by auto using ones_window_at_centre].
  pose proof (spec_response_le_bound _ _ _ _ Hat) as Hle.
  pose proof (blob_image_response_bound r c Hr Hc) as Hlt.
  destruct Hat as [Hw _].
  rewrite compute_blob_detection_exact by auto using in_kernel_0.
  f_equal. apply Z.leb_gt. lia.
Qed.

Lemma C2_scan_witness :
  compute_blob_detection ones_window 0 0 = Some false ∧
  window_at blob_image 3 3 ones_window ∧
  log_response ones_window 0 0 = Some (sumZ (tap_weight <$> all_taps)) ∧
  sumZ (tap_weight <$> all_taps) = -11 ∧
  compute_blob_detection ones_window 0 0 = Some false.
Proof.
  apply (C2_scan_of_blob_image_detects_nothing 3 3 ones_window).
  - lia.
  - lia.
  - split; [split; [reflexivity | repeat constructor]|].
    intros i j b Hi Hj.
    destruct (in_kernel_cases i Hi) as [->|[->|[->|[->| ->]]]];
    destruct (in_kernel_cases j Hj) as [->|[->|[->|[->| ->]]]];
    intros Hb; injection Hb as <-; reflexivity.
Defined.

(** C2, as claimed: on the all-ones window with offsets (0,0) the decision
    is not true, so the scan does not yield true at (3,3). *)
Lemma C2_all_ones_counterexample :
  window_at blob_image 3 3 ones_window ∧
  compute_blob_detection ones_window 0 0 ≠ Some true.
Proof. split; [exact ones_window_at_centre | discriminate]. Qed.

(** ** Offsets outside of the contract *)

Lemma for_each_ext {A I} (f g : I → A → option A) (l : list I) (acc : A) :
  Forall (λ k, ∀ a, f k a = g k a) l → for_each f l acc = for_each g l acc.
Proof.
  intros Hl. revert acc. induction Hl as [|k l Hk _ IH]; intros acc; [done|].
  cbn [for_each]. rewrite Hk. destruct (g k acc) as [acc'|]; [apply IH | done].
Qed.

Lemma for_each_fails {A I} (body : I → A → option A) (l : list I) (k : I)
    (acc : A) :
  k ∈ l → (∀ a, body k a = None) → for_each body l acc = None.
Proof.
  intros Hin Hk. revert acc.
  induction Hin as [k l|k k' l _ IH]; intros acc; cbn [for_each].
  - by rewrite Hk.
  - destruct (body k' acc) as [acc'|]; [apply IH, Hk | done].
Qed.

Lemma wrap_index_K (k : Z) :
  in_kernel k →
  wrap_index BLOB_FILTER_HEIGHT k BLOB_FILTER_HEIGHT
  = wrap_index 0 k BLOB_FILTER_HEIGHT.
Proof.
  unfold in_kernel, wrap_index, BLOB_FILTER_HEIGHT. intros Hk.
  destruct (Z.ltb_spec (5 + k) 5); [lia|].
  destruct (Z.ltb_spec (0 + k) 5); lia.
Qed.

Lemma log_response_row_K (window : monochrome_window_t) (start_col : Z) :
  log_response window BLOB_FILTER_HEIGHT start_col
  = log_response window 0 start_col.
Proof.
  rewrite !log_response_flat. unfold response_after. apply for_each_ext.
  apply Forall_take. eapply Forall_impl; [apply all_taps_in_kernel|].
  intros [i j] [Hi Hj] a. cbn [fst snd] in *. unfold blob_detect_tap.
  by rewrite wrap_index_K.
Qed.

Lemma log_response_col_K (window : monochrome_window_t) (start_row : Z) :
  log_response window start_row BLOB_FILTER_WIDTH
  = log_response window start_row 0.
Proof.
  rewrite !log_response_flat. unfold response_after. apply for_each_ext.
  apply Forall_take. eapply Forall_impl; [apply all_taps_in_kernel|].
  intros [i j] [Hi Hj] a. cbn [fst snd] in *. unfold blob_detect_tap.
  change BLOB_FILTER_WIDTH with BLOB_FILTER_HEIGHT.
  by rewrite wrap_index_K.
Qed.

Lemma log_response_tap_fails (window : monochrome_window_t)
    (start_row start_col i j : Z) :
  in_kernel i → in_kernel j →
  window_get window (wrap_index start_row i BLOB_FILTER_HEIGHT)
                    (wrap_index start_col j BLOB_FILTER_WIDTH) = None →
  log_response window start_row start_col = None.
Proof.
  intros Hi Hj Hget. rewrite log_response_flat. unfold response_after.
  apply (for_each_fails _ _ (i, j)).
  - by apply elem_of_all_taps.
  - intros a. unfold blob_detect_tap. cbn [fst snd]. by rewrite Hget.
Qed.

Lemma log_response_out_of_contract (window : monochrome_window_t)
    (start_row start_col : Z) :
  window_ok window →
  ¬ (0 <= start_row <= BLOB_FILTER_HEIGHT ∧
     0 <= start_col <= BLOB_FILTER_WIDTH) →
  log_response window start_row start_col = None.
Proof.
  intros [Hh Hw] Hout.
  assert (∀ row col, ¬ (0 <= row < 5 ∧ 0 <= col < 5) →
            window_get window row col = None) as Hnone.
  { intros row col Hrc.
    by apply (array2_get_None window _ _ row col Hh Hw). }
  unfold BLOB_FILTER_HEIGHT, BLOB_FILTER_WIDTH in Hout.
  assert (start_row < 0 ∨ 5 < start_row ∨ start_col < 0 ∨ 5 < start_col)
    as [Hlo|[Hhi|[Hlo|Hhi]]] by lia.
  - apply (log_response_tap_fails _ _ _ 0 0); [apply in_kernel_0..|].
    apply Hnone. intros [Hrow _]. revert Hrow.
    unfold wrap_index, BLOB_FILTER_HEIGHT.
    destruct (Z.ltb_spec (start_row + 0) 5); lia.
  - apply (log_response_tap_fails _ _ _ 4 0);
      [unfold in_kernel, BLOB_FILTER_HEIGHT; lia..|].
    apply Hnone. intros [Hrow _]. revert Hrow.
    unfold wrap_index, BLOB_FILTER_HEIGHT.
    destruct (Z.ltb_spec (start_row + 4) 5); lia.
  - apply (log_response_tap_fails _ _ _ 0 0); [apply in_kernel_0..|].
    apply Hnone. intros [_ Hcol]. revert Hcol.
    unfold wrap_index, BLOB_FILTER_WIDTH.
    destruct (Z.ltb_spec (start_col + 0) 5); lia.
  - apply (log_response_tap_fails _ _ _ 0 4);
      [unfold in_kernel, BLOB_FILTER_HEIGHT; lia..|].
    apply Hnone. intros [_ Hcol]. revert Hcol.
    unfold wrap_index, BLOB_FILTER_WIDTH.
    destruct (Z.ltb_spec (start_col + 4) 5); lia.
Qed.

Lemma log_response_in_reach (window : monochrome_window_t)
    (start_row start_col : Z) :
  window_ok window →
  0 <= start_row <= BLOB_FILTER_HEIGHT → 0 <= start_col <= BLOB_FILTER_WIDTH →
  is_Some (log_response window start_row start_col).
Proof.
  intros Hw Hsr Hsc.
  assert (in_kernel start_row ∨ start_row = BLOB_FILTER_HEIGHT) as [Hr| ->]
    by (unfold in_kernel, BLOB_FILTER_HEIGHT in *; lia);
  assert (in_kernel start_col ∨ start_col = BLOB_FILTER_WIDTH) as [Hc| ->]
    by (unfold in_kernel, BLOB_FILTER_HEIGHT, BLOB_FILTER_WIDTH in *; lia);
  rewrite ?log_response_row_K, ?log_response_col_K;
  rewrite log_response_exact by auto using in_kernel_0; done.
Qed.

(** C4, as the source has it.  [compute_blob_detection] checks nothing.  On
    a window of the configured dimensions it returns a decision exactly for
    the offsets of [[0, K]]: it succeeds for every offset of the contract,
    it also accepts an offset equal to [K], where it behaves as for the
    offset 0, and for a negative offset or one above [K] it reads outside
    of the window (undefined in C++, no result here). *)
Theorem C4_no_validation_of_offsets
    (window : monochrome_window_t) (start_row start_col : Z) :
  window_ok window →
  (in_kernel start_row → in_kernel start_col →
   is_Some (compute_blob_detection window start_row start_col)) ∧
  (is_Some (compute_blob_detection window start_row start_col) ↔
   0 <= start_row <= BLOB_FILTER_HEIGHT ∧
   0 <= start_col <= BLOB_FILTER_WIDTH) ∧
  compute_blob_detection window BLOB_FILTER_HEIGHT start_col
    = compute_blob_detection window 0 start_col ∧
  compute_blob_detection window start_row BLOB_FILTER_WIDTH
    = compute_blob_detection window start_row 0.
Proof.
  intros Hw. split; [|split; [|split]].
  - intros Hsr Hsc. by rewrite compute_blob_detection_exact.
  - unfold compute_blob_detection. split.
    + intros Hsome.
      destruct (decide (0 <= start_row <= BLOB_FILTER_HEIGHT ∧
                        0 <= start_col <= BLOB_FILTER_WIDTH)) as [|Hout];
        [done|].
      rewrite log_response_out_of_contract in Hsome by done.
      by destruct Hsome.
    + intros [Hsr Hsc].
      destruct (log_response_in_reach window start_row start_col Hw Hsr Hsc)
        as [response ->]. done.
  - unfold compute_blob_detection. by rewrite log_response_row_K.
  - unfold compute_blob_detection. by rewrite log_response_col_K.
Qed.

Lemma C4_no_validation_witness :
  (in_kernel 5 → in_kernel 2 →
   is_Some (compute_blob_detection peak_window 5 2)) ∧
  (is_Some (compute_blob_detection peak_window 5 2) ↔
   0 <= 5 <= BLOB_FILTER_HEIGHT ∧ 0 <= 2 <= BLOB_FILTER_WIDTH) ∧
  compute_blob_detection peak_window BLOB_FILTER_HEIGHT 2
    = compute_blob_detection peak_window 0 2 ∧
  compute_blob_detection peak_window 5 BLOB_FILTER_WIDTH
    = compute_blob_detection peak_window 5 0.
Proof.
  apply (C4_no_validation_of_offsets peak_window 5 2).
  split; [reflexivity | repeat constructor].
Defined.

(** C4, as claimed: with both offsets equal to [K] nothing is raised and a
    decision is returned. *)
Lemma C4_offset_K_counterexample :
  window_ok peak_window ∧
  ¬ in_kernel BLOB_FILTER_HEIGHT ∧
  compute_blob_detection peak_window BLOB_FILTER_HEIGHT BLOB_FILTER_WIDTH
    = Some true.
Proof.
  split; [split; [reflexivity | repeat constructor]|].
  split; [unfold in_kernel; lia | reflexivity].
Qed.

(** ** The wrapped index, beyond the contract *)

(** X1.  The conditional subtraction is the modulo exactly on the sums of
    [[0, 2K)]: for all integers [start] and [k], [wrap_index start k K] is
    [(start + k) mod K] if and only if [0 <= start + k < 2K]. *)
Theorem X1_wrap_index_is_mod_iff_single_wrap (start k : Z) :
  wrap_index start k BLOB_FILTER_HEIGHT = (start + k) mod BLOB_FILTER_HEIGHT
  ↔ 0 <= start + k < 2 * BLOB_FILTER_HEIGHT.
Proof.
  unfold wrap_index, BLOB_FILTER_HEIGHT.
  destruct (Z.ltb_spec (start + k) 5); Z.div_mod_to_equations; lia.
Qed.

Lemma wrap_index_onto (start row : Z) :
  in_kernel start → in_kernel row →
  ∃ i, in_kernel i ∧ wrap_index start i BLOB_FILTER_HEIGHT = row ∧
       ∀ i', in_kernel i' → wrap_index start i' BLOB_FILTER_HEIGHT = row →
             i' = i.
Proof.
  intros Hs Hr. exists ((row - start) mod BLOB_FILTER_HEIGHT).
  split; [apply mod_in_kernel|]. split.
  - rewrite wrap_index_mod by auto using mod_in_kernel.
    unfold in_kernel, BLOB_FILTER_HEIGHT in *.
    Z.div_mod_to_equations. lia.
  - intros i' Hi' Heq. rewrite wrap_index_mod in Heq by done.
    unfold in_kernel, BLOB_FILTER_HEIGHT in *.
    Z.div_mod_to_equations. lia.
Qed.

(** ** What a detection requires *)

Lemma sum_positive_taps_only (window : monochrome_window_t)
    (start_row start_col : Z) (taps : list (Z * Z)) :
  sumZ (tap_value window start_row start_col <$> taps)
  <= sumZ (tap_value window start_row start_col
           <$> filter (λ t, 0 < tap_weight t) taps).
Proof.
  induction taps as [|t taps IH]; [done|].
  rewrite filter_cons. sum_step.
  destruct (decide (0 < tap_weight t)) as [Hpos|Hneg].
  - sum_step. lia.
  - unfold tap_value at 1. destruct (tap_on _ _ _ t); lia.
Qed.

Lemma positive_taps :
  filter (λ t, 0 < tap_weight t) all_taps = [(1, 2); (2, 1); (2, 2); (2, 3); (3, 2)].
Proof. reflexivity. Qed.

(** X3.  A window is detected only if the pixel under the centre of the
    kernel is on and at least two of the four pixels under the cross around
    it are on: without the centre the response is at most 4 * 1512 raw, and
    with the centre and one pixel of the cross at most 5213 + 1512 raw,
    both below the threshold of 8028 raw. *)
Theorem X3_detection_needs_centre_and_two_of_cross
    (window : monochrome_window_t) (start_row start_col : Z) :
  window_ok window → in_kernel start_row → in_kernel start_col →
  compute_blob_detection window start_row start_col = Some true →
  tap_on window start_row start_col centre_tap = true ∧
  2 <= count_on window start_row start_col cross_taps.
Proof.
  intros Hw Hsr Hsc Hdet.
  rewrite compute_blob_detection_exact in Hdet by done.
  injection Hdet as Hdet. apply Z.leb_le in Hdet.
  unfold spec_response in Hdet. rewrite spec_response_over_tap_value in Hdet.
  pose proof (sum_positive_taps_only window start_row start_col all_taps)
    as Hpos.
  rewrite positive_taps in Hpos. unfold count_on, cross_taps, centre_tap.
  sum_step.
  set (response := sumZ (tap_value window start_row start_col <$> all_taps))
    in *.
  unfold tap_value in Hpos.
  change (tap_weight (1, 2)) with 1512 in Hpos.
  change (tap_weight (2, 1)) with 1512 in Hpos.
  change (tap_weight (2, 2)) with 5213 in Hpos.
  change (tap_weight (2, 3)) with 1512 in Hpos.
  change (tap_weight (3, 2)) with 1512 in Hpos.
  change LOG_RESPONSE_THRESHOLD with 8028 in Hdet.
  change (sumZ (_ <$> [])) with 0 in *.
  destruct (tap_on window start_row start_col (1, 2)),
           (tap_on window start_row start_col (2, 1)),
           (tap_on window start_row start_col (2, 2)),
           (tap_on window start_row start_col (2, 3)),
           (tap_on window start_row start_col (3, 2)); split; (done || lia).
Qed.

Lemma X3_detection_witness :
  tap_on peak_window 0 0 centre_tap = true ∧
  2 <= count_on peak_window 0 0 cross_taps.
Proof.
  apply (X3_detection_needs_centre_and_two_of_cross peak_window 0 0).
  - split; [reflexivity | repeat constructor].
  - unfold in_kernel, BLOB_FILTER_HEIGHT. lia.
  - unfold in_kernel, BLOB_FILTER_HEIGHT. lia.
  - reflexivity.
Defined.

(** ** The order of the additions *)

Lemma sumZ_Permutation (l l' : list Z) : l ≡ₚ l' → sumZ l = sumZ l'.
Proof.
  induction 1 as [|x l l' _ IH|x y l|l l' l'' _ IH1 _ IH2].
  - done.
  - rewrite !sumZ_cons. lia.
  - rewrite !sumZ_cons. lia.
  - congruence.
Qed.

Lemma response_over_exact (taps : list (Z * Z)) (window : monochrome_window_t)
    (start_row start_col : Z) :
  window_ok window → in_kernel start_row → in_kernel start_col →
  taps ≡ₚ all_taps →
  response_over taps window start_row start_col =
  Some (spec_response window start_row start_col).
Proof.
  intros Hw Hsr Hsc Hperm. unfold response_over.
  assert (neg_part taps = neg_part all_taps) as Hneg.
  { unfold neg_part. apply sumZ_Permutation. by rewrite Hperm. }
  assert (pos_part taps = pos_part all_taps) as Hpos.
  { unfold pos_part. apply sumZ_Permutation. by rewrite Hperm. }
  rewrite neg_part_all_taps in Hneg. rewrite pos_part_all_taps in Hpos.
  rewrite for_each_tap_exact; try done.
  - f_equal. unfold spec_response. rewrite spec_response_over_tap_value.
    rewrite Z.add_0_l. apply sumZ_Permutation. by rewrite Hperm.
  - rewrite Hperm. apply all_taps_in_kernel.
  - change (ap_fixed.min_raw LOG_NUM_BITS) with (-32768). lia.
  - change (ap_fixed.max_raw LOG_NUM_BITS) with 32767. lia.
Qed.

(** X5.  The response does not depend on the order in which the 25 taps
    are accumulated: running the body of the loops over any rearrangement of
    the kernel indices gives the response of the two nested loops. *)
Theorem X5_response_independent_of_tap_order
    (taps : list (Z * Z)) (window : monochrome_window_t)
    (start_row start_col : Z) :
  window_ok window → in_kernel start_row → in_kernel start_col →
  taps ≡ₚ all_taps →
  response_over taps window start_row start_col
  = log_response window start_row start_col.
Proof.
  intros Hw Hsr Hsc Hperm.
  rewrite response_over_exact by done. by rewrite log_response_exact.
Qed.

Lemma X5_tap_order_witness :
  response_over (reverse all_taps) peak_window 1 2
  = log_response peak_window 1 2.
Proof.
  apply (X5_response_independent_of_tap_order
           (reverse all_taps) peak_window 1 2).
  - split; [reflexivity | repeat constructor].
  - unfold in_kernel, BLOB_FILTER_HEIGHT. lia.
  - unfold in_kernel, BLOB_FILTER_HEIGHT. lia.
  - apply reverse_Permutation.
Defined.

(** ** The largest response *)






Lemma all_weights_nonzero : Forall (λ t, tap_weight t ≠ 0) all_taps.
Proof. repeat constructor; discriminate. Qed.




(** ** Symmetries of the kernel *)

Lemma weight_symmetric (i j : Z) :
  in_kernel i → in_kernel j →
  weight j i = weight i j ∧ weight (4 - i) j = weight i j ∧
  weight i (4 - j) = weight i j.
Proof.
  intros Hi Hj.
  destruct (in_kernel_cases i Hi) as [->|[->|[->|[->| ->]]]];
  destruct (in_kernel_cases j Hj) as [->|[->|[->|[->| ->]]]]; done.
Qed.

Lemma all_taps_explicit :
  all_taps =
  [ (0, 0); (0, 1); (0, 2); (0, 3); (0, 4); (1, 0); (1, 1); (1, 2);
    (1, 3); (1, 4); (2, 0); (2, 1); (2, 2); (2, 3); (2, 4); (3, 0);
    (3, 1); (3, 2); (3, 3); (3, 4); (4, 0); (4, 1); (4, 2); (4, 3);
    (4, 4) ].
Proof. reflexivity. Qed.

Lemma sumZ_all_taps_transposed (g : Z * Z → Z) :
  sumZ ((λ t, g (t.2, t.1)) <$> all_taps) = sumZ (g <$> all_taps).
Proof. rewrite all_taps_explicit. cbn. lia. Qed.

Lemma sumZ_all_taps_rows_flipped (g : Z * Z → Z) :
  sumZ ((λ t, g (4 - t.1, t.2)) <$> all_taps) = sumZ (g <$> all_taps).
Proof.
  rewrite all_taps_explicit. cbn.
  change (4 - 0) with 4. change (4 - 1) with 3. change (4 - 2) with 2.
  change (4 - 3) with 1. change (4 - 4) with 0. lia.
Qed.

Lemma sumZ_all_taps_cols_flipped (g : Z * Z → Z) :
  sumZ ((λ t, g (t.1, 4 - t.2)) <$> all_taps) = sumZ (g <$> all_taps).
Proof.
  rewrite all_taps_explicit. cbn.
  change (4 - 0) with 4. change (4 - 1) with 3. change (4 - 2) with 2.
  change (4 - 3) with 1. change (4 - 4) with 0. lia.
Qed.

Lemma transpose_window_ok (window : monochrome_window_t) :
  window_ok (transpose_window window).
Proof. split; [reflexivity | repeat constructor]. Qed.

Lemma pixel_transpose_window (window : monochrome_window_t) (row col : Z) :
  in_kernel row → in_kernel col →
  pixel (transpose_window window) row col = pixel window col row.
Proof.
  intros Hr Hc.
  destruct (in_kernel_cases row Hr) as [->|[->|[->|[->| ->]]]];
  destruct (in_kernel_cases col Hc) as [->|[->|[->|[->| ->]]]]; reflexivity.
Qed.

Lemma flip_rows_ok (window : monochrome_window_t) :
  window_ok window → window_ok (flip_rows window).
Proof.
  intros [Hh Hw]. unfold flip_rows. split.
  - by rewrite length_reverse.
  - by apply Forall_reverse.
Qed.

Lemma flip_cols_ok (window : monochrome_window_t) :
  window_ok window → window_ok (flip_cols window).
Proof.
  intros [Hh Hw]. unfold flip_cols. split.
  - by rewrite length_fmap.
  - apply Forall_fmap. eapply Forall_impl; [exact Hw|].
    intros line Hline. cbn. by rewrite length_reverse.
Qed.

Lemma pixel_flip_rows (window : monochrome_window_t) (row col : Z) :
  window_ok window → in_kernel row → in_kernel col →
  pixel (flip_rows window) row col = pixel window (4 - row) col.
Proof.
  intros [Hh Hw] Hr Hc. unfold pixel, window_get, array2_get, flip_rows.
  unfold monochrome_window_t, monochrome_t in *.
  unfold in_kernel, BLOB_FILTER_HEIGHT in *.
  destruct (Z.ltb_spec row 0); [lia|]. destruct (Z.ltb_spec col 0); [lia|].
  destruct (Z.ltb_spec (4 - row) 0); [lia|]. cbn [orb].
  rewrite reverse_lookup by lia. rewrite Hh.
  by replace (Z.to_nat 5 - S (Z.to_nat row))%nat with (Z.to_nat (4 - row))
    by lia.
Qed.

Lemma pixel_flip_cols (window : monochrome_window_t) (row col : Z) :
  window_ok window → in_kernel row → in_kernel col →
  pixel (flip_cols window) row col = pixel window row (4 - col).
Proof.
  intros [Hh Hw] Hr Hc. unfold pixel, window_get, array2_get, flip_cols.
  unfold monochrome_window_t, monochrome_t in *.
  unfold in_kernel, BLOB_FILTER_HEIGHT in *.
  destruct (Z.ltb_spec row 0); [lia|]. destruct (Z.ltb_spec col 0); [lia|].
  destruct (Z.ltb_spec (4 - col) 0); [lia|]. cbn [orb].
  rewrite list_lookup_fmap.
  destruct (window !! Z.to_nat row) as [line|] eqn:Hline; [|done].
  cbn. rewrite Forall_lookup in Hw. specialize (Hw _ _ Hline).
  unfold BLOB_FILTER_WIDTH in Hw.
  rewrite reverse_lookup by lia. rewrite Hw.
  by replace (Z.to_nat 5 - S (Z.to_nat col))%nat with (Z.to_nat (4 - col))
    by lia.
Qed.

Lemma spec_response_transpose (window : monochrome_window_t)
    (start_row start_col : Z) :
  spec_response (transpose_window window) start_col start_row
  = spec_response window start_row start_col.
Proof.
  unfold spec_response. rewrite !spec_response_over_tap_value.
  rewrite <- (sumZ_all_taps_transposed (tap_value window start_row start_col)).
  apply sumZ_pointwise_eq.
  eapply Forall_impl; [apply all_taps_in_kernel|].
  intros [i j] [Hi Hj]. cbn [fst snd] in *.
  unfold tap_value, tap_on, tap_weight. cbn [fst snd].
  change BLOB_FILTER_WIDTH with BLOB_FILTER_HEIGHT.
  rewrite pixel_transpose_window by apply mod_in_kernel.
  by destruct (weight_symmetric i j Hi Hj) as (-> & _ & _).
Qed.

(** X6.  The kernel is symmetric about its diagonal, so the decision for a
    window mirrored at its diagonal, with the two offsets exchanged, is the
    decision for the window itself. *)
Theorem X6_decision_invariant_under_transposition
    (window : monochrome_window_t) (start_row start_col : Z) :
  window_ok window → in_kernel start_row → in_kernel start_col →
  compute_blob_detection (transpose_window window) start_col start_row
  = compute_blob_detection window start_row start_col.
Proof.
  intros Hw Hsr Hsc.
  rewrite !compute_blob_detection_exact by auto using transpose_window_ok.
  by rewrite spec_response_transpose.
Qed.

Lemma X6_transposition_witness :
  compute_blob_detection (transpose_window peak_window) 3 1
  = compute_blob_detection peak_window 1 3.
Proof.
  apply (X6_decision_invariant_under_transposition peak_window 1 3).
  - split; [reflexivity | repeat constructor].
  - unfold in_kernel, BLOB_FILTER_HEIGHT. lia.
  - unfold in_kernel, BLOB_FILTER_HEIGHT. lia.
Defined.

Lemma mirrored_index (start k : Z) :
  in_kernel start → in_kernel k →
  4 - ((BLOB_FILTER_HEIGHT - start) mod BLOB_FILTER_HEIGHT + k)
        mod BLOB_FILTER_HEIGHT
  = (start + (4 - k)) mod BLOB_FILTER_HEIGHT.
Proof.
  intros Hs Hk.
  destruct (in_kernel_cases start Hs) as [->|[->|[->|[->| ->]]]];
  destruct (in_kernel_cases k Hk) as [->|[->|[->|[->| ->]]]]; reflexivity.
Qed.

Lemma spec_response_flip_rows (window : monochrome_window_t)
    (start_row start_col : Z) :
  window_ok window → in_kernel start_row →
  spec_response (flip_rows window)
    ((BLOB_FILTER_HEIGHT - start_row) mod BLOB_FILTER_HEIGHT) start_col
  = spec_response window start_row start_col.
Proof.
  intros Hw Hsr. unfold spec_response. rewrite !spec_response_over_tap_value.
  rewrite <- (sumZ_all_taps_rows_flipped
                (tap_value window start_row start_col)).
  apply sumZ_pointwise_eq.
  eapply Forall_impl; [apply all_taps_in_kernel|].
  intros [i j] [Hi Hj]. cbn [fst snd] in *.
  unfold tap_value, tap_on, tap_weight. cbn [fst snd].
  change BLOB_FILTER_WIDTH with BLOB_FILTER_HEIGHT.
  rewrite pixel_flip_rows by auto using mod_in_kernel.
  rewrite mirrored_index by done.
  by destruct (weight_symmetric i j Hi Hj) as (_ & -> & _).
Qed.

Lemma spec_response_flip_cols (window : monochrome_window_t)
    (start_row start_col : Z) :
  window_ok window → in_kernel start_col →
  spec_response (flip_cols window) start_row
    ((BLOB_FILTER_WIDTH - start_col) mod BLOB_FILTER_WIDTH)
  = spec_response window start_row start_col.
Proof.
  intros Hw Hsc. unfold spec_response. rewrite !spec_response_over_tap_value.
  rewrite <- (sumZ_all_taps_cols_flipped
                (tap_value window start_row start_col)).
  apply sumZ_pointwise_eq.
  eapply Forall_impl; [apply all_taps_in_kernel|].
  intros [i j] [Hi Hj]. cbn [fst snd] in *.
  unfold tap_value, tap_on, tap_weight. cbn [fst snd].
  change BLOB_FILTER_WIDTH with BLOB_FILTER_HEIGHT.
  rewrite pixel_flip_cols by auto using mod_in_kernel.
  rewrite mirrored_index by done.
  by destruct (weight_symmetric i j Hi Hj) as (_ & _ & ->).
Qed.

(** X7.  The kernel is symmetric under reversing its rows and under
    reversing its columns, so the decision for a window turned upside down,
    or mirrored left to right, is the decision for the window itself, when
    the offset of the mirrored direction is mirrored too ([(K - start) mod
    K], which is 0 for the offset 0). *)
Theorem X7_decision_invariant_under_mirroring
    (window : monochrome_window_t) (start_row start_col : Z) :
  window_ok window → in_kernel start_row → in_kernel start_col →
  compute_blob_detection (flip_rows window)
    ((BLOB_FILTER_HEIGHT - start_row) mod BLOB_FILTER_HEIGHT) start_col
  = compute_blob_detection window start_row start_col ∧
  compute_blob_detection (flip_cols window) start_row
    ((BLOB_FILTER_WIDTH - start_col) mod BLOB_FILTER_WIDTH)
  = compute_blob_detection window start_row start_col.
Proof.
  intros Hw Hsr Hsc. split.
  - rewrite !compute_blob_detection_exact
      by auto using flip_rows_ok, mod_in_kernel.
    by rewrite spec_response_flip_rows.
  - pose proof (spec_response_flip_cols window start_row start_col Hw Hsc)
      as Hflip.
    change BLOB_FILTER_WIDTH with BLOB_FILTER_HEIGHT in *.
    rewrite !compute_blob_detection_exact
      by auto using flip_cols_ok, mod_in_kernel.
    by rewrite Hflip.
Qed.

Lemma X7_mirroring_witness :
  compute_blob_detection (flip_rows peak_window)
    ((BLOB_FILTER_HEIGHT - 2) mod BLOB_FILTER_HEIGHT) 0
  = compute_blob_detection peak_window 2 0 ∧
  compute_blob_detection (flip_cols peak_window) 2
    ((BLOB_FILTER_WIDTH - 0) mod BLOB_FILTER_WIDTH)
  = compute_blob_detection peak_window 2 0.
Proof.
  apply (X7_decision_invariant_under_mirroring peak_window 2 0).
  - split; [reflexivity | repeat constructor].
  - unfold in_kernel, BLOB_FILTER_HEIGHT. lia.
  - unfold in_kernel, BLOB_FILTER_HEIGHT. lia.
Defined.

(** ** Windows that dominate a detected window *)

(** X8.  A window that has every pixel under a positive weight that
    another window has, and no pixel under a negative weight that the other
    lacks, has a response at least as large; so if the other window is
    detected, it is detected too. *)
Theorem X8_dominating_window_is_detected
    (window window' : monochrome_window_t) (start_row start_col : Z) :
  window_ok window → window_ok window' →
  in_kernel start_row → in_kernel start_col →
  (∀ i j, in_kernel i → in_kernel j → 0 < weight i j →
     tap_on window start_row start_col (i, j) = true →
     tap_on window' start_row start_col (i, j) = true) →
  (∀ i j, in_kernel i → in_kernel j → weight i j < 0 →
     tap_on window' start_row start_col (i, j) = true →
     tap_on window start_row start_col (i, j) = true) →
  ∃ response response' : log_response_t,
    log_response window start_row start_col = Some response ∧
    log_response window' start_row start_col = Some response' ∧
    response <= response' ∧
    (compute_blob_detection window start_row start_col = Some true →
     compute_blob_detection window' start_row start_col = Some true).
Proof.
  intros Hw Hw' Hsr Hsc Hpos Hneg.
  assert (spec_response window start_row start_col
          <= spec_response window' start_row start_col) as Hle.
  { unfold spec_response. rewrite !spec_response_over_tap_value.
    apply sumZ_pointwise_le.
    eapply Forall_impl; [apply all_taps_in_kernel|].
    intros [i j] [Hi Hj]. cbn [fst snd] in *.
    specialize (Hpos i j Hi Hj). specialize (Hneg i j Hi Hj).
    unfold tap_value, tap_weight. cbn [fst snd].
    destruct (tap_on window start_row start_col (i, j));
      destruct (tap_on window' start_row start_col (i, j)).
    - lia.
    - destruct (decide (0 < weight i j)) as [Hp|Hn]; [|lia].
      by specialize (Hpos Hp eq_refl).
    - destruct (decide (weight i j < 0)) as [Hn|Hp]; [|lia].
      by specialize (Hneg Hn eq_refl).
    - lia. }
  eexists _, _. split; [by apply log_response_exact|].
  split; [by apply log_response_exact|]. split; [exact Hle|].
  rewrite !compute_blob_detection_exact by done.
  intros [= Hdet]. f_equal. apply Z.leb_le. apply Z.leb_le in Hdet. lia.
Qed.

Lemma X8_dominating_window_witness :
  ∃ response response' : log_response_t,
    log_response dented_window 0 0 = Some response ∧
    log_response fuller_window 0 0 = Some response' ∧
    response <= response' ∧
    (compute_blob_detection dented_window 0 0 = Some true →
     compute_blob_detection fuller_window 0 0 = Some true).
Proof.
  apply (X8_dominating_window_is_detected dented_window fuller_window 0 0).
  - split; [reflexivity | repeat constructor].
  - split; [reflexivity | repeat constructor].
  - unfold in_kernel, BLOB_FILTER_HEIGHT. lia.
  - unfold in_kernel, BLOB_FILTER_HEIGHT. lia.
  - intros i j Hi Hj.
    destruct (in_kernel_cases i Hi) as [->|[->|[->|[->| ->]]]];
    destruct (in_kernel_cases j Hj) as [->|[->|[->|[->| ->]]]];
    intros Hweight Hon; vm_compute in Hweight, Hon;
    first [discriminate Hweight | discriminate Hon | reflexivity].
  - intros i j Hi Hj.
    destruct (in_kernel_cases i Hi) as [->|[->|[->|[->| ->]]]];
    destruct (in_kernel_cases j Hj) as [->|[->|[->|[->| ->]]]];
    intros Hweight Hon; vm_compute in Hweight, Hon;
    first [discriminate Hweight | discriminate Hon | reflexivity].
Defined.

(** The first window of the comparison is detected, and the second has one
    more pixel of the cross and one pixel of negative weight less. *)
Example dented_window_detected :
  compute_blob_detection dented_window 0 0 = Some true ∧
  log_response dented_window 0 0 = Some 9257 ∧
  log_response fuller_window 0 0 = Some 10869.
Proof. repeat split. Qed.

(** ** Stored values and written literals *)





(** ** The decision and the written literals *)

Lemma forallb_seqZ (f : Z → bool) (n k : Z) :
  forallb f (seqZ 0 n) = true → 0 <= k < n → f k = true.
Proof.
  intros Hall Hk. rewrite forallb_forall in Hall. apply Hall.
  apply list_elem_of_In, elem_of_seqZ. lia.
Qed.

Lemma decisions_agree_in_range
    (corners borders sides diagonals crosses centres : Z) :
  0 <= corners <= 4 → 0 <= borders <= 8 → 0 <= sides <= 4 →
  0 <= diagonals <= 4 → 0 <= crosses <= 4 → 0 <= centres <= 1 →
  decisions_agree corners borders sides diagonals crosses centres = true.
Proof.
  intros H1 H2 H3 H4 H5 H6.
  assert (decisions_agree_everywhere = true) as Hall
    by (vm_compute; reflexivity).
  unfold decisions_agree_everywhere in Hall.
  apply (forallb_seqZ _ _ corners) in Hall; [|lia].
  apply (forallb_seqZ _ _ borders) in Hall; [|lia].
  apply (forallb_seqZ _ _ sides) in Hall; [|lia].
  apply (forallb_seqZ _ _ diagonals) in Hall; [|lia].
  apply (forallb_seqZ _ _ crosses) in Hall; [|lia].
  apply (forallb_seqZ _ _ centres) in Hall; [|lia].
  exact Hall.
Qed.

Lemma count_on_bounds (window : monochrome_window_t) (start_row start_col : Z)
    (taps : list (Z * Z)) :
  0 <= count_on window start_row start_col taps <= Z.of_nat (length taps).
Proof.
  unfold count_on. induction taps as [|t taps IH]; [done|].
  sum_step. rewrite length_cons, Nat2Z.inj_succ.
  destruct (tap_on window start_row start_col t); lia.
Qed.

Ltac weights_by_computation :=
  repeat match goal with
  | |- context [tap_weight (?i, ?j)] =>
      let v := eval vm_compute in (tap_weight (i, j)) in
      change (tap_weight (i, j)) with v
  | |- context [literal_at ?i ?j] =>
      let v := eval vm_compute in (literal_at i j) in
      change (literal_at i j) with v
  end.

Lemma response_by_counts (window : monochrome_window_t)
    (start_row start_col : Z) :
  let count := count_on window start_row start_col in
  sumZ (tap_value window start_row start_col <$> all_taps)
  = -392 * count corner_taps + -754 * count border_taps
    + -818 * count side_taps + -100 * count diagonal_taps
    + 1512 * count cross_taps + 5213 * count [centre_tap].
Proof.
  intros count. subst count.
  rewrite (sumZ_pointwise_eq (tap_value window start_row start_col)
             (λ t, tap_weight t
                   * (if tap_on window start_row start_col t then 1 else 0))).
  2: { apply Forall_forall. intros t _. unfold tap_value.
       destruct (tap_on window start_row start_col t); lia. }
  rewrite all_taps_explicit.
  unfold count_on, corner_taps, border_taps, side_taps, diagonal_taps,
    cross_taps, centre_tap.
  sum_step. change (sumZ (_ <$> [])) with 0.
  weights_by_computation. lia.
Qed.

Lemma decimal_by_counts (window : monochrome_window_t)
    (start_row start_col : Z) :
  let count := count_on window start_row start_col in
  sumZ (tap_literal window start_row start_col <$> all_taps)
  = -239 * count corner_taps + -460 * count border_taps
    + -499 * count side_taps + -61 * count diagonal_taps
    + 923 * count cross_taps + 3182 * count [centre_tap].
Proof.
  intros count. subst count.
  rewrite (sumZ_pointwise_eq (tap_literal window start_row start_col)
             (λ t, literal_at t.1 t.2
                   * (if tap_on window start_row start_col t then 1 else 0))).
  2: { apply Forall_forall. intros t _. unfold tap_literal.
       destruct (tap_on window start_row start_col t); lia. }
  rewrite all_taps_explicit.
  unfold count_on, corner_taps, border_taps, side_taps, diagonal_taps,
    cross_taps, centre_tap.
  sum_step. change (sumZ (_ <$> [])) with 0. cbn [fst snd].
  weights_by_computation. lia.
Qed.

Lemma decision_by_decimal_response
    (window : monochrome_window_t) (start_row start_col : Z) :
  window_ok window → in_kernel start_row → in_kernel start_col →
  ∃ decision : blob_detection_t,
    compute_blob_detection window start_row start_col = Some decision ∧
    (decision = true ↔
     (literal 4900 <= decimal_response window start_row start_col)%Q).
Proof.
  intros Hw Hsr Hsc. eexists. split; [by apply compute_blob_detection_exact|].
  unfold spec_response. rewrite spec_response_over_tap_value.
  unfold decimal_response, literal.
  rewrite response_by_counts, decimal_by_counts. cbv zeta.
  pose proof (count_on_bounds window start_row start_col corner_taps) as H1.
  pose proof (count_on_bounds window start_row start_col border_taps) as H2.
  pose proof (count_on_bounds window start_row start_col side_taps) as H3.
  pose proof (count_on_bounds window start_row start_col diagonal_taps) as H4.
  pose proof (count_on_bounds window start_row start_col cross_taps) as H5.
  pose proof (count_on_bounds window start_row start_col [centre_tap]) as H6.
  cbn [length] in *.
  pose proof (decisions_agree_in_range _ _ _ _ _ _ H1 H2 H3 H4 H5 H6) as Hagree.
  unfold decisions_agree in Hagree. apply Bool.eqb_prop in Hagree.
  rewrite Hagree. rewrite Z.leb_le. unfold Qle. cbn [Qnum Qden]. lia.
Qed.

Lemma claimed_literal_sum_exact (window : monochrome_window_t)
    (start_row start_col : Z) :
  window_ok window →
  claimed_literal_sum window start_row start_col
  = sumZ (tap_literal window start_row start_col <$> all_taps).
Proof.
  intros Hw. unfold claimed_literal_sum. rewrite sum_filter_if.
  change kernel_indices with all_taps. apply sumZ_pointwise_eq.
  eapply Forall_impl; [apply all_taps_in_kernel|].
  intros [i j] [Hi Hj]. cbn beta.
  rewrite wrapped_pixel_on_tap_on by done.
  unfold tap_literal. cbn [fst snd] in *.
  destruct (in_kernel_cases i Hi) as [->|[->|[->|[->| ->]]]];
  destruct (in_kernel_cases j Hj) as [->|[->|[->|[->| ->]]]]; reflexivity.
Qed.

(** X11.  Storing the weights and the threshold with 14 fractional bits
    never changes a decision: for a 5x5 window and offsets in [[0,5)], the
    decision is true exactly when the sum of the written literals, over the
    kernel indices [(i, j)] of [[0,5) x [0,5)] whose window pixel
    [window[(start_row+i) mod 5][(start_col+j) mod 5]] is 1, is at least
    0.4900. *)
Theorem X11_quantisation_never_changes_the_decision
    (window : monochrome_window_t) (start_row start_col : Z) :
  window_ok window → 0 <= start_row < 5 → 0 <= start_col < 5 →
  ∃ decision : blob_detection_t,
    compute_blob_detection window start_row start_col = Some decision ∧
    (decision = true ↔
     (literal 4900
      <= literal (claimed_literal_sum window start_row start_col))%Q).
Proof.
  intros Hw Hsr Hsc. rewrite claimed_literal_sum_exact by done.
  by apply decision_by_decimal_response.
Qed.

Lemma X11_quantisation_witness :
  ∃ decision : blob_detection_t,
    compute_blob_detection peak_window 4 4 = Some decision ∧
    (decision = true ↔
     (literal 4900 <= literal (claimed_literal_sum peak_window 4 4))%Q).
Proof.
  apply (X11_quantisation_never_changes_the_decision peak_window 4 4).
  - split; [reflexivity | repeat constructor].
  - lia.
  - lia.
Defined.

(** ** Every pixel counts once *)

Lemma sumZ_plus {X} (f g : X → Z) (l : list X) :
  sumZ ((λ x, f x + g x) <$> l) = sumZ (f <$> l) + sumZ (g <$> l).
Proof. induction l as [|x l IH]; [done|]. sum_step. lia. Qed.

Lemma sum_single_weight (i j : Z) :
  in_kernel i → in_kernel j →
  sumZ ((λ t, if decide (t = (i, j)) then tap_weight t else 0) <$> all_taps)
  = weight i j.
Proof.
  intros Hi Hj.
  destruct (in_kernel_cases i Hi) as [->|[->|[->|[->| ->]]]];
  destruct (in_kernel_cases j Hj) as [->|[->|[->|[->| ->]]]]; reflexivity.
Qed.

Lemma spec_response_pixel_switch (window : monochrome_window_t)
    (start_row start_col i j : Z) :
  window_ok window → in_kernel i → in_kernel j →
  let row := (start_row + i) mod BLOB_FILTER_HEIGHT in
  let col := (start_col + j) mod BLOB_FILTER_WIDTH in
  spec_response (set_pixel window row col true) start_row start_col
  - spec_response (set_pixel window row col false) start_row start_col
  = weight i j.
Proof.
  intros Hw Hi Hj row col. subst row col. unfold spec_response.
  rewrite !spec_response_over_tap_value.
  rewrite <- (sum_single_weight i j Hi Hj).
  match goal with |- ?a - ?b = ?c => enough (a = b + c) by lia end.
  rewrite <- sumZ_plus. apply sumZ_pointwise_eq.
  eapply Forall_impl; [apply all_taps_in_kernel|].
  intros t [Ht1 Ht2]. cbn beta. unfold tap_value.
  rewrite !tap_on_set_pixel by done.
  destruct (decide (t = (i, j))); lia.
Qed.

(** X2.  With both offsets in [[0,5)], every pixel of a 5x5 window is read
    by exactly one tap of the loops, and counts: for each coordinate
    [(row, col)] of the window there is one and only one kernel index
    [(i, j)] whose computed row and column are [row] and [col], its weight
    is not 0, and the response of [compute_blob_detection]'s loops with that
    pixel on exceeds the response with that pixel off by exactly
    [kernel[i][j]]. *)
Theorem X2_every_pixel_read_by_one_tap
    (window : monochrome_window_t) (start_row start_col row col : Z) :
  window_ok window → in_kernel start_row → in_kernel start_col →
  in_kernel row → in_kernel col →
  ∃ i j, in_kernel i ∧ in_kernel j ∧
    wrap_index start_row i BLOB_FILTER_HEIGHT = row ∧
    wrap_index start_col j BLOB_FILTER_WIDTH = col ∧
    (∀ i' j', in_kernel i' → in_kernel j' →
       wrap_index start_row i' BLOB_FILTER_HEIGHT = row →
       wrap_index start_col j' BLOB_FILTER_WIDTH = col →
       i' = i ∧ j' = j) ∧
    weight i j ≠ 0 ∧
    ∃ off on : log_response_t,
      log_response (set_pixel window row col false) start_row start_col
        = Some off ∧
      log_response (set_pixel window row col true) start_row start_col
        = Some on ∧
      on - off = weight i j.
Proof.
  intros Hw Hsr Hsc Hr Hc.
  destruct (wrap_index_onto start_row row Hsr Hr) as (i & Hi & Hrow & Hiu).
  destruct (wrap_index_onto start_col col Hsc Hc) as (j & Hj & Hcol & Hju).
  exists i, j. do 4 (split; [done|]). split; [|split].
  - intros i' j' Hi' Hj' Hrow' Hcol'. split; [by apply Hiu | by apply Hju].
  - pose proof all_weights_nonzero as Hnz. rewrite Forall_forall in Hnz.
    apply (Hnz (i, j)). by apply elem_of_all_taps.
  - rewrite wrap_index_mod in Hrow by done.
    rewrite (wrap_index_mod start_col j) in Hcol by done.
    eexists _, _.
    split; [apply log_response_exact; [by apply set_pixel_ok|done..]|].
    split; [apply log_response_exact; [by apply set_pixel_ok|done..]|].
    rewrite <- Hrow, <- Hcol.
    by apply (spec_response_pixel_switch window start_row start_col i j).
Qed.

Lemma X2_every_pixel_witness :
  ∃ i j, in_kernel i ∧ in_kernel j ∧
    wrap_index 3 i BLOB_FILTER_HEIGHT = 0 ∧
    wrap_index 4 j BLOB_FILTER_WIDTH = 2 ∧
    (∀ i' j', in_kernel i' → in_kernel j' →
       wrap_index 3 i' BLOB_FILTER_HEIGHT = 0 →
       wrap_index 4 j' BLOB_FILTER_WIDTH = 2 →
       i' = i ∧ j' = j) ∧
    weight i j ≠ 0 ∧
    ∃ off on : log_response_t,
      log_response (set_pixel peak_window 0 2 false) 3 4 = Some off ∧
      log_response (set_pixel peak_window 0 2 true) 3 4 = Some on ∧
      on - off = weight i j.
Proof.
  apply (X2_every_pixel_read_by_one_tap peak_window 3 4 0 2).
  - split; [reflexivity | repeat constructor].
  - unfold in_kernel, BLOB_FILTER_HEIGHT. lia.
  - unfold in_kernel, BLOB_FILTER_HEIGHT. lia.
  - unfold in_kernel, BLOB_FILTER_HEIGHT. lia.
  - unfold in_kernel, BLOB_FILTER_HEIGHT. lia.
Defined.
